(** * Platform Master: AABB collision core, player controller and physics world

    A shallow embedding of [main.py].  Python numbers are embedded as exact
    rationals [Q].  The program computes on ints and on binary64 floats
    ([0.0], [30.0], a position once a velocity has been added to it); its
    comparisons, negations and absolute values are exact on both, and its
    sums and differences are exact on integers of moderate size ([small_int]
    below), which is what the program is run with.  Statements that depend on
    the result of a sum or a difference of coordinates are made for such
    numbers; the module [Binary64] has the geometry on floats, where a sum
    can round.  Numeric results are compared with [==] where arithmetic is
    involved and with [=] where the program merely copies.
    Python does not tell [0.0] from [0] or [30.0] from [30] in comparisons and
    arithmetic, and they are written [0] and [30] here. *)

From Stdlib Require Import QArith Qabs Lqa Bool PrimFloat.
From stdpp Require Import list.

Open Scope Q_scope.

(** ** Python comparisons on numbers, as booleans *)

(** [a <= b] *)
Definition Qleb (a b : Q) : bool := Qle_bool a b.

(** [a < b] *)
Definition Qltb (a b : Q) : bool := negb (Qle_bool b a).

(** ** class AABBCollision *)

(** [Bounds = Tuple[Tuple[int, int], Tuple[int, int]]]: the x interval and the
    y interval.  For a pair [p], Python's [p[0]] is [fst p] and [p[1]] is
    [snd p]; so [bounds1[0][1]] reads [snd (fst bounds1)]. *)
Definition Interval : Type := Q * Q.
Definition Bounds : Type := Interval * Interval.

Module AABBCollision.

Definition _AABB_is_colliding_1d (x1 x2 : Interval) : bool :=
  Qleb (fst x1) (snd x2) && Qleb (fst x2) (snd x1).

Definition _AABB_vector_1d (x1 x2 : Interval) : Q :=
  if Qltb (Qabs (snd x1 - fst x2)) (Qabs (snd x2 - fst x1))
  then fst x2 - snd x1
  else snd x2 - fst x1.

Definition AABB_is_colliding (bounds1 bounds2 : Bounds) : bool :=
  _AABB_is_colliding_1d (fst bounds1) (fst bounds2)
  && _AABB_is_colliding_1d (snd bounds1) (snd bounds2).

Definition AABB_vector_compact (bounds1 bounds2 : Bounds) : Q * Q :=
  if (Qleb (fst (fst bounds1)) (snd (fst bounds2))
      && Qleb (fst (fst bounds2)) (snd (fst bounds1)))
     && (Qleb (fst (snd bounds1)) (snd (snd bounds2))
         && Qleb (fst (snd bounds2)) (snd (snd bounds1)))
  then
    let x :=
      if Qltb (Qabs (snd (fst bounds1) - fst (fst bounds2)))
              (Qabs (snd (fst bounds2) - fst (fst bounds1)))
      then fst (fst bounds2) - snd (fst bounds1)
      else snd (fst bounds2) - fst (fst bounds1) in
    let y :=
      if Qltb (Qabs (snd (snd bounds1) - fst (snd bounds2)))
              (Qabs (snd (snd bounds2) - fst (snd bounds1)))
      then fst (snd bounds2) - snd (snd bounds1)
      else snd (snd bounds2) - fst (snd bounds1) in
    (* Select shortest path if colliding on both axes *)
    if Qltb (Qabs x) (Qabs y) then (x, 0) else (0, y)
  else (0, 0).

Definition AABB_vector (bounds1 bounds2 : Bounds) : Q * Q :=
  let res : Q * Q := (0, 0) in
  let res :=
    if AABB_is_colliding bounds1 bounds2
    then (_AABB_vector_1d (fst bounds1) (fst bounds2),
          _AABB_vector_1d (snd bounds1) (snd bounds2))
    else res in
  (* Select shortest path if colliding on both axes *)
  if Qltb (Qabs (fst res)) (Qabs (snd res))
  then (fst res, 0)
  else (0, snd res).

End AABBCollision.
Export AABBCollision.

(** ** class PhysicsObject *)

Inductive Tag : Type := STATIC | DYNAMIC | PLAYER.

#[global] Instance Tag_eq_dec : EqDecision Tag.
Proof. solve_decision. Defined.

(** The two subclasses of the program.  A [Player] carries its [velocity]
    list [[vx, vy]]; a [Platform] has no field of its own. *)
Inductive Kind : Type :=
  | KPlatform
  | KPlayer (velocity : Q * Q).

Record PhysicsObject : Type := mkPhysicsObject {
  id : nat;
  x : Q;
  y : Q;
  width : Q;
  height : Q;
  tags : list Tag;
  kind : Kind
}.

(** [PhysicsObject.__init__]: [newid] is the class-wide counter; the object
    takes its next value and the advanced counter is returned with it. *)
Definition PhysicsObject_init (x y width height : Q) (tags : list Tag)
    (kind : Kind) (newid : nat) : PhysicsObject * nat :=
  (mkPhysicsObject newid x y width height tags kind, S newid).

Definition bounds (self : PhysicsObject) : Bounds :=
  ((x self, x self + width self), (y self, y self + height self)).

(** [move(self, x, y)]; the call site passes the pair [*offset]. *)
Definition move (self : PhysicsObject) (offset : Q * Q) : PhysicsObject :=
  mkPhysicsObject (id self) (x self + fst offset) (y self + snd offset)
    (width self) (height self) (tags self) (kind self).

Definition velocity (self : PhysicsObject) : option (Q * Q) :=
  match kind self with
  | KPlayer v => Some v
  | KPlatform => None
  end.

(** ** class Platform, class Player *)

Definition Platform (x y width height : Q) (newid : nat) : PhysicsObject * nat :=
  PhysicsObject_init x y width height [STATIC] KPlatform newid.

Definition Player (x y width height : Q) (newid : nat) : PhysicsObject * nat :=
  PhysicsObject_init x y width height [DYNAMIC; PLAYER] (KPlayer (0, 0)) newid.

(** The part of [pygame.key.get_pressed()] that [Player.update] reads.  The
    key state changes only when the event queue is pumped, which the main
    loop does once per frame before [physics.update()]. *)
Record Keys : Type := mkKeys {
  K_SPACE : bool;
  K_LEFT : bool;
  K_RIGHT : bool
}.

Module PlayerUpdate.

(** The statements of [Player.update], in program order, on the velocity
    pair [(vx, vy)]. *)

(** [if keys[K_SPACE] and velocity[1] < 0.1: ...] *)
Definition jump (keys : Keys) (v : Q * Q) : Q * Q :=
  if K_SPACE keys && Qltb (snd v) 0.1 then
    let v := if Qltb (snd v) 0 then (fst v, 0) else v in
    (fst v, snd v + 30)
  else v.

(** [if keys[K_LEFT] and velocity[0] > -10: ...] *)
Definition left (keys : Keys) (v : Q * Q) : Q * Q :=
  if K_LEFT keys && Qltb (-10) (fst v) then (fst v - 3, snd v) else v.

(** [if keys[K_RIGHT] and velocity[0] < 10: ...] *)
Definition right (keys : Keys) (v : Q * Q) : Q * Q :=
  if K_RIGHT keys && Qltb (fst v) 10 then (fst v + 3, snd v) else v.

(** The gravity block.  [t] is a local of [update], set to 1 at the start
    of the block; the result pairs the new velocity with the final value
    of [t]. *)
Definition gravity (v : Q * Q) : (Q * Q) * Q :=
  let t := 1 in
  if Qltb (-15) (snd v)
  then ((fst v, snd v - 3 * t), t + 1)
  else (v, 1).

(** Velocity after the whole of [update]; the local [t] is dropped when the
    call returns. *)
Definition step_velocity (keys : Keys) (v : Q * Q) : Q * Q :=
  fst (gravity (right keys (left keys (jump keys v)))).

End PlayerUpdate.

(** [Player.update]: the velocity statements, then
    [self.x += velocity[0]; self.y -= velocity[1]]. *)
Definition Player_update (keys : Keys) (self : PhysicsObject) (v : Q * Q)
    : PhysicsObject :=
  let v' := PlayerUpdate.step_velocity keys v in
  mkPhysicsObject (id self) (x self + fst v') (y self - snd v')
    (width self) (height self) (tags self) (KPlayer v').

(** [Platform.update] is [pass]. *)
Definition Platform_update (self : PhysicsObject) : PhysicsObject := self.

(** [obj.update()], dispatched on the object's class. *)
Definition update_obj (keys : Keys) (obj : PhysicsObject) : PhysicsObject :=
  match kind obj with
  | KPlatform => Platform_update obj
  | KPlayer v => Player_update keys obj v
  end.

(** ** Drawing

    Every object draws itself by one call on the display. *)

(** A call [pygame.draw.rect(display, color, rect)].  The display is modelled
    by the calls made on it, oldest first. *)
Record DrawRect : Type := mkDrawRect {
  color : nat * nat * nat;
  rect : Q * Q * Q * Q
}.

(** [Platform.draw] and [Player.draw] have the same body. *)
Definition draw_obj (display : list DrawRect) (self : PhysicsObject)
    : list DrawRect :=
  display ++ [mkDrawRect (255, 0, 0)%nat
                (x self, y self, width self, height self)].

(** ** class PhysicsEngine

    [self.objects] is the store: a list of objects addressed by position.
    The objects are mutated in place, so an object changed earlier in a pass
    is seen changed by everything after it. *)

Definition is_dynamic (obj : PhysicsObject) : bool :=
  bool_decide (DYNAMIC ∈ tags obj).

Module PhysicsEngine.

Definition init : list PhysicsObject := [].

Definition register_obj (objects : list PhysicsObject) (obj : PhysicsObject)
    : list PhysicsObject :=
  objects ++ [obj].

(** The positions of [[obj for obj in self.objects if DYNAMIC in obj.tags]],
    computed once before the outer loop starts. *)
Definition dynamic_positions (objects : list PhysicsObject) : list nat :=
  List.filter (fun i => match objects !! i with
                        | Some obj => is_dynamic obj
                        | None => false
                        end) (seq 0 (length objects)).

(** One step of the inner loop on [dyn_obj]. *)
Definition resolve_step (dyn_obj obj : PhysicsObject) : PhysicsObject :=
  if Nat.eqb (id obj) (id dyn_obj) then dyn_obj
  else move dyn_obj (AABB_vector_compact (bounds dyn_obj) (bounds obj)).

(** The inner loop [for obj in self.objects].  Only [dyn_obj] changes while
    it runs, and the entry that is [dyn_obj] itself is skipped by its id. *)
Definition resolve (objects : list PhysicsObject) (dyn_obj : PhysicsObject)
    : PhysicsObject :=
  fold_left resolve_step objects dyn_obj.

(** The outer loop body for the dynamic object stored at position [i]. *)
Definition resolve_at (objects : list PhysicsObject) (i : nat)
    : list PhysicsObject :=
  match objects !! i with
  | Some dyn_obj => <[i := resolve objects dyn_obj]> objects
  | None => objects
  end.

Definition _collision_update (objects : list PhysicsObject)
    : list PhysicsObject :=
  fold_left resolve_at (dynamic_positions objects) objects.

Definition update (keys : Keys) (objects : list PhysicsObject)
    : list PhysicsObject :=
  _collision_update (update_obj keys <$> objects).

(** [draw]: every object draws itself, in the order of [self.objects]. *)
Definition draw (display : list DrawRect) (objects : list PhysicsObject)
    : list DrawRect :=
  fold_left draw_obj objects display.

End PhysicsEngine.

(** Consecutive calls of [Player.update] on one velocity, one key snapshot per
    tick. *)
Definition run_velocity (ks : list Keys) (v : Q * Q) : Q * Q :=
  fold_left (fun v keys => PlayerUpdate.step_velocity keys v) ks v.

(** Consecutive calls of [obj.update()] on one object. *)
Definition run_obj (ks : list Keys) (obj : PhysicsObject) : PhysicsObject :=
  fold_left (fun o keys => update_obj keys o) ks obj.

(** ** Notions the statements use

    None of the following is part of the program. *)

(** The bounds moved by a displacement, as [move] followed by [bounds] gives
    them. *)
Definition translate (b : Bounds) (v : Q * Q) : Bounds :=
  ((fst (fst b) + fst v, snd (fst b) + fst v),
   (fst (snd b) + snd v, snd (snd b) + snd v)).

(** Overlap with strict comparisons: the open interiors meet. *)
Definition overlap_strict_1d (x1 x2 : Interval) : bool :=
  Qltb (fst x1) (snd x2) && Qltb (fst x2) (snd x1).

Definition overlap_strict (b1 b2 : Bounds) : bool :=
  overlap_strict_1d (fst b1) (fst b2) && overlap_strict_1d (snd b1) (snd b2).

(** A rectangle's intervals run from their minimum to their maximum. *)
Definition interval_ok (i : Interval) : Prop := fst i <= snd i.
Definition bounds_ok (b : Bounds) : Prop :=
  interval_ok (fst b) /\ interval_ok (snd b).

Definition positive_extents (b : Bounds) : Prop :=
  fst (fst b) < snd (fst b) /\ fst (snd b) < snd (snd b).

(** Two closed intervals share an endpoint: one ends where the other starts. *)
Definition touching_1d (i j : Interval) : Prop :=
  snd i == fst j \/ snd j == fst i.

(** Two rectangles touch along an edge or at a corner: on one axis the
    intervals share an endpoint, on the other they share an endpoint or
    overlap. *)
Definition meets_1d (i j : Interval) : Prop :=
  touching_1d i j \/ _AABB_is_colliding_1d i j = true.

Definition edge_touching (a b : Bounds) : Prop :=
  (touching_1d (fst a) (fst b) /\ meets_1d (snd a) (snd b))
  \/ (meets_1d (fst a) (fst b) /\ touching_1d (snd a) (snd b)).

(** Bounds with equal numbers ([==]) in each position. *)
Definition Bounds_eq (b b' : Bounds) : Prop :=
  (fst (fst b) == fst (fst b') /\ snd (fst b) == snd (fst b'))
  /\ (fst (snd b) == fst (snd b') /\ snd (snd b) == snd (snd b')).

(** Class invariants: an instance of [Player] or of [Platform] carries the
    tags its constructor gave it. *)
Definition is_Player (obj : PhysicsObject) : Prop :=
  (exists v, kind obj = KPlayer v) /\ tags obj = [DYNAMIC; PLAYER].

Definition is_Platform (obj : PhysicsObject) : Prop :=
  kind obj = KPlatform /\ tags obj = [STATIC].

Definition instance_ok (obj : PhysicsObject) : Prop :=
  is_Player obj \/ is_Platform obj.

Definition no_keys : Keys := mkKeys false false false.

(** A player and one platform that overlap on the player's right side. *)
Definition one_platform_world : list PhysicsObject :=
  let '(player, newid) := Player 0 0 10 10 0%nat in
  let '(platform, _) := Platform 5 0 10 20 newid in
  PhysicsEngine.register_obj
    (PhysicsEngine.register_obj PhysicsEngine.init player) platform.

(** A player squeezed between two platforms: [A] on its right, [B] on its
    left, both overlapping it. *)
Definition two_platform_world : list PhysicsObject :=
  let '(player, newid) := Player 0 0 10 10 0%nat in
  let '(A, newid) := Platform 8 (-10) 22 40 newid in
  let '(B, _) := Platform (-20) (-10) 21 40 newid in
  PhysicsEngine.register_obj
    (PhysicsEngine.register_obj
       (PhysicsEngine.register_obj PhysicsEngine.init player) A) B.

(** A number on the grid the velocity components move on: an integer
    multiple of 3 between [lo] and [hi]. *)
Definition grid (lo hi : Z) (q : Q) : Prop :=
  exists a : Z, q = inject_Z a /\ (a mod 3 = 0)%Z /\ (lo <= a <= hi)%Z.

(** The invariant of [Player.update]. *)
Definition velocity_ok (v : Q * Q) : Prop :=
  grid (-12) 12 (fst v) /\ grid (-15) 27 (snd v).

(** The dynamic body of a two-body world when [PhysicsEngine.update] returns:
    ticked by its own [update()], then moved by the vector against the other
    body. *)
Definition resolved (keys : Keys) (dyn_obj platform : PhysicsObject)
    : PhysicsObject :=
  let ticked := update_obj keys dyn_obj in
  move ticked (AABB_vector_compact (bounds ticked) (bounds platform)).

(** [Player.update] on integer velocity components: the horizontal statements
    and the vertical statements, read off [PlayerUpdate]. *)
Definition tickZ_x (keys : Keys) (a : Z) : Z :=
  let a1 := if K_LEFT keys && (-10 <? a)%Z then (a - 3)%Z else a in
  if K_RIGHT keys && (a1 <? 10)%Z then (a1 + 3)%Z else a1.

Definition tickZ_y (keys : Keys) (b : Z) : Z :=
  let b1 := if K_SPACE keys && (b <=? 0)%Z
            then ((if (b <? 0)%Z then 0 else b) + 30)%Z else b in
  if (-15 <? b1)%Z then (b1 - 3)%Z else b1.

(** Two states of one object that differ at most in position. *)
Definition same_shape (obj obj' : PhysicsObject) : Prop :=
  id obj = id obj' /\ width obj = width obj' /\ height obj = height obj'
  /\ tags obj = tags obj' /\ kind obj = kind obj'.

(** Two states of one object at the same place. *)
Definition same_place (obj obj' : PhysicsObject) : Prop :=
  same_shape obj obj' /\ x obj == x obj' /\ y obj == y obj'.

(** ** The set-up and the frames of [__main__] *)

(** A constructor call [Player(x, y, w, h)] or [Platform(x, y, w, h)]. *)
Inductive Ctor : Type :=
  | NewPlayer (x y width height : Q)
  | NewPlatform (x y width height : Q).

Definition construct (c : Ctor) (newid : nat) : PhysicsObject * nat :=
  match c with
  | NewPlayer x y w h => Player x y w h newid
  | NewPlatform x y w h => Platform x y w h newid
  end.

(** A run of statements [physics.register_obj(C(...))], as [__main__] has
    them: each constructs an object with the next id and registers it. *)
Fixpoint register_all (cs : list Ctor) (objects : list PhysicsObject)
    (newid : nat) : list PhysicsObject * nat :=
  match cs with
  | [] => (objects, newid)
  | c :: cs =>
      let '(obj, newid) := construct c newid in
      register_all cs (PhysicsEngine.register_obj objects obj) newid
  end.

(** The world [__main__] sets up: the player, the four edges and the middle
    platform. *)
Definition main_objects : list PhysicsObject :=
  fst (register_all
         [NewPlayer 50 380 40 60;
          NewPlatform 5 490 490 5;
          NewPlatform 5 5 490 5;
          NewPlatform 5 10 5 480;
          NewPlatform 490 10 5 480;
          NewPlatform 180 225 140 50]
         PhysicsEngine.init 0%nat).

(** The frames of the main loop, as far as the world goes: one
    [physics.update()] per frame, each under the keys held in that frame. *)
Definition run_world (ks : list Keys) (objects : list PhysicsObject)
    : list PhysicsObject :=
  fold_left (fun objects keys => PhysicsEngine.update keys objects) ks objects.

(** The comparisons do not tell [==] numbers apart. *)
#[global] Instance Qltb_comp : Proper (Qeq ==> Qeq ==> eq) Qltb.
Proof. intros a a' Ha b b' Hb. unfold Qltb. now rewrite Ha, Hb. Qed.

#[global] Instance Qleb_comp' : Proper (Qeq ==> Qeq ==> eq) Qleb.
Proof. intros a a' Ha b b' Hb. unfold Qleb. now rewrite Ha, Hb. Qed.

(** ** Numbers on which the program is exact

    The program computes on Python ints and, from the first tick of a
    [Player] on, on binary64 floats.  An integer of magnitude at most [2^48]
    is the same number as an int and as a float, and the sums and differences
    the program forms from a few such numbers stay below [2^53], where binary64
    holds every integer: on them the program rounds nothing and computes what
    the rational model computes.  Statements that depend on the result of an
    addition or a subtraction are made for such numbers. *)
Definition small_int (q : Q) : Prop :=
  exists z : Z, q == inject_Z z /\ (Z.abs z <= 2 ^ 48)%Z.

Definition small_bounds (b : Bounds) : Prop :=
  (small_int (fst (fst b)) /\ small_int (snd (fst b)))
  /\ (small_int (fst (snd b)) /\ small_int (snd (snd b))).

Definition small_object (obj : PhysicsObject) : Prop :=
  small_int (x obj) /\ small_int (y obj)
  /\ small_int (width obj) /\ small_int (height obj)
  /\ match kind obj with
     | KPlayer v => small_int (fst v) /\ small_int (snd v)
     | KPlatform => True
     end.

(** An object the inner loop passes over without moving a body that is where
    [D] is: the body itself, or an object that does not collide with it. *)
Definition inert (D obj : PhysicsObject) : Prop :=
  id obj = id D \/ AABB_is_colliding (bounds D) (bounds obj) = false.

(** The player and platform of [one_platform_world] and a platform far from
    both. *)
Definition far_platform_world : list PhysicsObject :=
  fst (register_all
         [NewPlayer 0 0 10 10; NewPlatform 5 0 10 20; NewPlatform 100 100 10 10]
         PhysicsEngine.init 0%nat).

(** A player that overlaps the platform on its right only, with a second
    platform just clear of it on the left. *)
Definition pushed_back_world : list PhysicsObject :=
  fst (register_all
         [NewPlayer 0 0 10 10; NewPlatform 8 (-10) 22 40;
          NewPlatform (-20) (-10) 19 40]
         PhysicsEngine.init 0%nat).

(** Two players and two platforms.  The second player overlaps the platform
    on its right and nothing else; the first player is clear of it, but
    overlaps the platform on its own left. *)
Definition crowded_world : list PhysicsObject :=
  fst (register_all
         [NewPlatform 8 (-10) 22 40; NewPlayer (-23) (-10) 19 40;
          NewPlayer 0 0 10 10; NewPlatform (-40) (-10) 20 40]
         PhysicsEngine.init 0%nat).

(** ** The geometry on binary64

    [AABB_vector_compact], [AABB_is_colliding], [bounds] and [move] as the
    program runs them once its numbers are floats: the same statements, with
    the operations of binary64. *)
Module Binary64.

Definition Bounds : Type := (float * float) * (float * float).

Definition AABB_is_colliding (bounds1 bounds2 : Bounds) : bool :=
  (PrimFloat.leb (fst (fst bounds1)) (snd (fst bounds2))
   && PrimFloat.leb (fst (fst bounds2)) (snd (fst bounds1)))
  && (PrimFloat.leb (fst (snd bounds1)) (snd (snd bounds2))
      && PrimFloat.leb (fst (snd bounds2)) (snd (snd bounds1))).

Definition AABB_vector_compact (bounds1 bounds2 : Bounds) : float * float :=
  if (PrimFloat.leb (fst (fst bounds1)) (snd (fst bounds2))
      && PrimFloat.leb (fst (fst bounds2)) (snd (fst bounds1)))
     && (PrimFloat.leb (fst (snd bounds1)) (snd (snd bounds2))
         && PrimFloat.leb (fst (snd bounds2)) (snd (snd bounds1)))
  then
    let x :=
      if PrimFloat.ltb
           (PrimFloat.abs (PrimFloat.sub (snd (fst bounds1)) (fst (fst bounds2))))
           (PrimFloat.abs (PrimFloat.sub (snd (fst bounds2)) (fst (fst bounds1))))
      then PrimFloat.sub (fst (fst bounds2)) (snd (fst bounds1))
      else PrimFloat.sub (snd (fst bounds2)) (fst (fst bounds1)) in
    let y :=
      if PrimFloat.ltb
           (PrimFloat.abs (PrimFloat.sub (snd (snd bounds1)) (fst (snd bounds2))))
           (PrimFloat.abs (PrimFloat.sub (snd (snd bounds2)) (fst (snd bounds1))))
      then PrimFloat.sub (fst (snd bounds2)) (snd (snd bounds1))
      else PrimFloat.sub (snd (snd bounds2)) (fst (snd bounds1)) in
    if PrimFloat.ltb (PrimFloat.abs x) (PrimFloat.abs y)
    then (x, PrimFloat.zero) else (PrimFloat.zero, y)
  else (PrimFloat.zero, PrimFloat.zero).

(** [bounds] of an object at [(x, y)] of the given size. *)
Definition bounds (x y width height : float) : Bounds :=
  ((x, PrimFloat.add x width), (y, PrimFloat.add y height)).

(** The position after [move] by the pair [offset]. *)
Definition move (x y : float) (offset : float * float) : float * float :=
  (PrimFloat.add x (fst offset), PrimFloat.add y (snd offset)).

(** Overlap with strict comparisons, as [overlap_strict]. *)
Definition overlap_strict (b1 b2 : Bounds) : bool :=
  (PrimFloat.ltb (fst (fst b1)) (snd (fst b2))
   && PrimFloat.ltb (fst (fst b2)) (snd (fst b1)))
  && (PrimFloat.ltb (fst (snd b1)) (snd (snd b2))
      && PrimFloat.ltb (fst (snd b2)) (snd (snd b1))).

(** The bounds of a body of size [width] x [height] at [(x, y)] after one
    [move] by its vector against [other]. *)
Definition pushed (x y width height : float) (other : Bounds) : Bounds :=
  let offset := AABB_vector_compact (bounds x y width height) other in
  let '(x', y') := move x y offset in
  bounds x' y' width height.

End Binary64.

(** The world of [__main__] once the player has landed on the bottom
    platform. *)
Definition landed_world : list PhysicsObject :=
  mkPhysicsObject 0 50 430 40 60 [DYNAMIC; PLAYER] (KPlayer (0, -15))
    :: tail main_objects.

(** ** Comparison lemmas *)

Lemma Qleb_le (a b : Q) : Qleb a b = true <-> a <= b.
Proof. apply Qle_bool_iff. Qed.

Lemma Qleb_gt (a b : Q) : Qleb a b = false <-> b < a.
Proof.
  unfold Qleb. rewrite <- not_true_iff_false, Qle_bool_iff.
  split; [apply Qnot_le_lt | apply Qlt_not_le].
Qed.

Lemma Qltb_lt (a b : Q) : Qltb a b = true <-> a < b.
Proof. unfold Qltb. rewrite negb_true_iff. apply Qleb_gt. Qed.

Lemma Qltb_ge (a b : Q) : Qltb a b = false <-> b <= a.
Proof. unfold Qltb. rewrite negb_false_iff. apply Qle_bool_iff. Qed.

(** Turn every boolean comparison in the context and goal into its
    proposition, splitting conjunctions. *)
Ltac qbool :=
  repeat match goal with
    | H : _ && _ = true |- _ => apply andb_true_iff in H; destruct H
    | H : Qleb _ _ = true |- _ => apply Qleb_le in H
    | H : Qleb _ _ = false |- _ => apply Qleb_gt in H
    | H : Qltb _ _ = true |- _ => apply Qltb_lt in H
    | H : Qltb _ _ = false |- _ => apply Qltb_ge in H
    | |- _ && _ = true => apply andb_true_iff; split
    | |- Qleb _ _ = true => apply Qleb_le
    | |- Qleb _ _ = false => apply Qleb_gt
    | |- Qltb _ _ = true => apply Qltb_lt
    | |- Qltb _ _ = false => apply Qltb_ge
    end.

(** ** Small integers *)

Lemma small_int_inject_Z (z : Z) : (Z.abs z <= 2 ^ 48)%Z -> small_int (inject_Z z).
Proof. intros Hz. exists z. split; [reflexivity | exact Hz]. Qed.

(** Prove that an integer literal is small. *)
Ltac small :=
  lazymatch goal with
  | |- small_int (?n # 1) =>
      apply (small_int_inject_Z n); vm_compute; discriminate
  | |- True => exact I
  end.

Ltac small_obj :=
  unfold small_object, small_bounds; cbn;
  repeat match goal with |- _ /\ _ => split end; small.

(** ** Symmetry of the overlap test *)

Lemma _AABB_is_colliding_1d_sym (x1 x2 : Interval) :
  _AABB_is_colliding_1d x1 x2 = _AABB_is_colliding_1d x2 x1.
Proof. unfold _AABB_is_colliding_1d. apply andb_comm. Qed.

(** C8: [AABB_is_colliding] is symmetric: for all bounds [a] and [b],
    [AABB_is_colliding a b = AABB_is_colliding b a]. *)
Theorem AABB_is_colliding_sym (a b : Bounds) :
  AABB_is_colliding a b = AABB_is_colliding b a.
Proof.
  unfold AABB_is_colliding.
  now rewrite (_AABB_is_colliding_1d_sym (fst a)), (_AABB_is_colliding_1d_sym (snd a)).
Qed.

(** ** The two separation-vector implementations agree *)

(** C9: [AABB_vector_compact] and [AABB_vector] return the same pair on every
    pair of bounds, the non-colliding case included, where both give
    [(0, 0)]. *)
Theorem AABB_vector_compact_eq_AABB_vector (b1 b2 : Bounds) :
  AABB_vector_compact b1 b2 = AABB_vector b1 b2.
Proof.
  unfold AABB_vector_compact, AABB_vector, AABB_is_colliding,
    _AABB_is_colliding_1d, _AABB_vector_1d.
  destruct (_ && _); reflexivity.
Qed.

(** ** Touching edges *)

Lemma touching_1d_colliding (i j : Interval) :
  interval_ok i -> interval_ok j -> touching_1d i j ->
  _AABB_is_colliding_1d i j = true.
Proof.
  unfold interval_ok, touching_1d, _AABB_is_colliding_1d.
  destruct i as [i0 i1], j as [j0 j1]; simpl.
  intros Hi Hj [H | H]; qbool; lra.
Qed.

Lemma meets_1d_colliding (i j : Interval) :
  interval_ok i -> interval_ok j -> meets_1d i j ->
  _AABB_is_colliding_1d i j = true.
Proof.
  intros Hi Hj [H | H]; [now apply touching_1d_colliding | exact H].
Qed.

(** C6: rectangles whose closed intervals touch exactly at an edge are
    colliding: the comparisons of [AABB_is_colliding] are inclusive.  The
    instance [((0,1),(0,1))], [((1,2),(0,1))] of the claim is
    [touching_edges_collide_witness]. *)
Theorem touching_edges_collide (a b : Bounds) :
  bounds_ok a -> bounds_ok b -> edge_touching a b ->
  AABB_is_colliding a b = true.
Proof.
  intros [Hax Hay] [Hbx Hby] Ht. unfold AABB_is_colliding.
  apply andb_true_iff.
  destruct Ht as [[Hx Hy] | [Hx Hy]]; split;
    auto using touching_1d_colliding, meets_1d_colliding.
Qed.

Lemma touching_edges_collide_witness :
  bounds_ok ((0, 1), (0, 1)) /\ bounds_ok ((1, 2), (0, 1))
  /\ edge_touching ((0, 1), (0, 1)) ((1, 2), (0, 1))
  /\ AABB_is_colliding ((0, 1), (0, 1)) ((1, 2), (0, 1)) = true.
Proof.
  assert (Ha : bounds_ok ((0, 1), (0, 1))).
  { split; unfold interval_ok; simpl; lra. }
  assert (Hb : bounds_ok ((1, 2), (0, 1))).
  { split; unfold interval_ok; simpl; lra. }
  assert (Ht : edge_touching ((0, 1), (0, 1)) ((1, 2), (0, 1))).
  { left. split.
    - left. simpl. reflexivity.
    - right. reflexivity. }
  exact (conj Ha (conj Hb (conj Ht
    (touching_edges_collide ((0, 1), (0, 1)) ((1, 2), (0, 1)) Ha Hb Ht)))).
Defined.

(** ** The tie-break of the separation vector *)

Lemma AABB_vector_compact_colliding (b1 b2 : Bounds) :
  AABB_is_colliding b1 b2 = true ->
  AABB_vector_compact b1 b2 =
    let x := _AABB_vector_1d (fst b1) (fst b2) in
    let y := _AABB_vector_1d (snd b1) (snd b2) in
    if Qltb (Qabs x) (Qabs y) then (x, 0) else (0, y).
Proof.
  unfold AABB_is_colliding, _AABB_is_colliding_1d, AABB_vector_compact.
  intros ->. reflexivity.
Qed.

Lemma AABB_vector_compact_apart (b1 b2 : Bounds) :
  AABB_is_colliding b1 b2 = false -> AABB_vector_compact b1 b2 = (0, 0).
Proof.
  unfold AABB_is_colliding, _AABB_is_colliding_1d, AABB_vector_compact.
  intros ->. reflexivity.
Qed.

(** C4: when the two per-axis candidates of colliding bounds have equal
    absolute value, the result keeps the y candidate and zeroes x.  The
    instance [((0,10),(0,10))], [((5,15),(5,15))] of the claim is
    [tie_keeps_dy_witness]. *)
Theorem tie_keeps_dy (b1 b2 : Bounds) :
  AABB_is_colliding b1 b2 = true ->
  Qabs (_AABB_vector_1d (fst b1) (fst b2))
    == Qabs (_AABB_vector_1d (snd b1) (snd b2)) ->
  AABB_vector_compact b1 b2 = (0, _AABB_vector_1d (snd b1) (snd b2)).
Proof.
  intros Hc Htie. rewrite (AABB_vector_compact_colliding _ _ Hc). cbv zeta.
  destruct (Qltb _ _) eqn:E; [| reflexivity].
  qbool. rewrite Htie in E. now apply Qlt_irrefl in E.
Qed.

Lemma tie_keeps_dy_witness :
  AABB_is_colliding ((0, 10), (0, 10)) ((5, 15), (5, 15)) = true
  /\ Qabs (_AABB_vector_1d (0, 10) (5, 15)) == Qabs (_AABB_vector_1d (0, 10) (5, 15))
  /\ AABB_vector_compact ((0, 10), (0, 10)) ((5, 15), (5, 15)) = (0, -5)
  /\ ~ -5 == 0.
Proof.
  split; [reflexivity |]. split; [reflexivity |]. split.
  - exact (tie_keeps_dy ((0, 10), (0, 10)) ((5, 15), (5, 15))
             eq_refl (Qeq_refl _)).
  - intro H. discriminate H.
Defined.

(** ** What the separation vector achieves *)

Lemma Bounds_eq_refl (b : Bounds) : Bounds_eq b b.
Proof. repeat split; reflexivity. Qed.

Lemma bounds_move (obj : PhysicsObject) (v : Q * Q) :
  Bounds_eq (bounds (move obj v)) (translate (bounds obj) v).
Proof. unfold Bounds_eq, bounds, move, translate; simpl. repeat split; lra. Qed.

(** After the push the moved bounds sit against [b2] on the chosen axis:
    the inclusive test still holds and the strict one fails. *)
Lemma pushed_bounds_touch (b1 b2 b1' : Bounds) :
  AABB_is_colliding b1 b2 = true ->
  Bounds_eq b1' (translate b1 (AABB_vector_compact b1 b2)) ->
  overlap_strict b1' b2 = false /\ AABB_is_colliding b1' b2 = true.
Proof.
  intros Hc. rewrite (AABB_vector_compact_colliding _ _ Hc). cbv zeta.
  revert Hc.
  unfold AABB_is_colliding, _AABB_is_colliding_1d, _AABB_vector_1d,
    overlap_strict, overlap_strict_1d, Bounds_eq, translate.
  destruct b1 as [[ax0 ax1] [ay0 ay1]], b2 as [[bx0 bx1] [by0 by1]],
    b1' as [[cx0 cx1] [cy0 cy1]].
  cbn [fst snd]. intros Hc.
  destruct (Qltb (Qabs (ax1 - bx0)) (Qabs (bx1 - ax0)));
    destruct (Qltb (Qabs (ay1 - by0)) (Qabs (by1 - ay0)));
    match goal with |- context [if ?c then _ else _] => destruct c end;
    cbn [fst snd]; intros [[H1 H2] [H3 H4]]; qbool;
    (split; [apply not_true_iff_false; intro Hs; qbool; lra | qbool; lra]).
Qed.

(** Bounds that are not colliding do not overlap strictly either. *)
Lemma overlap_strict_colliding (b1 b2 : Bounds) :
  overlap_strict b1 b2 = true -> AABB_is_colliding b1 b2 = true.
Proof.
  unfold AABB_is_colliding, _AABB_is_colliding_1d, overlap_strict,
    overlap_strict_1d.
  intros H. qbool; lra.
Qed.

(** ** A pushed body is at rest *)

Lemma Qabs_cases (q : Q) :
  (0 <= q /\ Qabs q == q) \/ (q <= 0 /\ Qabs q == - q).
Proof.
  destruct (Qlt_le_dec q 0) as [H | H].
  - right. split; [now apply Qlt_le_weak | apply Qabs_neg; now apply Qlt_le_weak].
  - left. split; [exact H | now apply Qabs_pos].
Qed.

(** Replace every absolute value in the context by its two cases. *)
Ltac qabs :=
  repeat match goal with
    | H : context [Qabs ?q] |- _ =>
        let a := fresh "a" in
        let Ha := fresh "Ha" in
        let Heq := fresh "Heq" in
        destruct (Qabs_cases q) as [[? Ha] | [? Ha]];
        remember (Qabs q) as a eqn:Heq; clear Heq
    end.

(** The separation vector of one-dimensional intervals that share an
    endpoint is zero. *)
Lemma _AABB_vector_1d_touching (x1 x2 : Interval) :
  touching_1d x1 x2 -> _AABB_vector_1d x1 x2 == 0.
Proof.
  unfold touching_1d, _AABB_vector_1d. destruct x1 as [a0 a1], x2 as [b0 b1].
  cbn [fst snd]. intros Ht.
  destruct (Qltb _ _) eqn:E; qbool; destruct Ht as [Ht | Ht]; qabs; lra.
Qed.

(** X3: for colliding bounds with integer coordinates of magnitude at most
    [2^48]: once moved by the separation vector, the bounds get the zero
    vector against the same rectangle: a body resting against another is not
    moved again. *)
Lemma pushed_bounds_stable (b1 b2 b1' : Bounds) :
  small_bounds b1 -> small_bounds b2 ->
  AABB_is_colliding b1 b2 = true ->
  Bounds_eq b1' (translate b1 (AABB_vector_compact b1 b2)) ->
  fst (AABB_vector_compact b1' b2) == 0 /\ snd (AABB_vector_compact b1' b2) == 0.
Proof.
  intros _ _ Hc Heq.
  destruct (pushed_bounds_touch _ _ _ Hc Heq) as [Hs Hc'].
  rewrite (AABB_vector_compact_colliding _ _ Hc'). cbv zeta.
  assert (Ht : touching_1d (fst b1') (fst b2) \/ touching_1d (snd b1') (snd b2)).
  { revert Heq. rewrite (AABB_vector_compact_colliding _ _ Hc). cbv zeta.
    unfold _AABB_vector_1d, Bounds_eq, translate, touching_1d.
    destruct b1 as [[ax0 ax1] [ay0 ay1]], b2 as [[bx0 bx1] [by0 by1]],
      b1' as [[cx0 cx1] [cy0 cy1]].
    cbn [fst snd].
    destruct (Qltb (Qabs (ax1 - bx0)) (Qabs (bx1 - ax0)));
      destruct (Qltb (Qabs (ay1 - by0)) (Qabs (by1 - ay0)));
      match goal with |- context [if ?c then _ else _] => destruct c end;
      cbn [fst snd]; intros [[H1 H2] [H3 H4]];
      first [ left; left; lra | left; right; lra
            | right; left; lra | right; right; lra ]. }
  destruct (Qltb _ _) eqn:E; cbn [fst snd]; qbool.
  - split; [| reflexivity].
    destruct Ht as [Ht | Ht].
    + now apply _AABB_vector_1d_touching.
    + apply _AABB_vector_1d_touching in Ht. rewrite Ht in E.
      revert E. generalize (_AABB_vector_1d (fst b1') (fst b2)). intros q E.
      qabs; lra.
  - split; [reflexivity |].
    destruct Ht as [Ht | Ht].
    + apply _AABB_vector_1d_touching in Ht. rewrite Ht in E.
      revert E. generalize (_AABB_vector_1d (snd b1') (snd b2)). intros q E.
      qabs; lra.
    + now apply _AABB_vector_1d_touching.
Qed.

Lemma pushed_bounds_stable_witness :
  small_bounds ((0, 10), (0, 10)) /\ small_bounds ((5, 15), (0, 10))
  /\ AABB_is_colliding ((0, 10), (0, 10)) ((5, 15), (0, 10)) = true
  /\ translate ((0, 10), (0, 10))
       (AABB_vector_compact ((0, 10), (0, 10)) ((5, 15), (0, 10)))
     = ((-5, 5), (0, 10))
  /\ fst (AABB_vector_compact ((-5, 5), (0, 10)) ((5, 15), (0, 10))) == 0
  /\ snd (AABB_vector_compact ((-5, 5), (0, 10)) ((5, 15), (0, 10))) == 0.
Proof.
  assert (S1 : small_bounds ((0, 10), (0, 10))) by small_obj.
  assert (S2 : small_bounds ((5, 15), (0, 10))) by small_obj.
  split; [exact S1 |]. split; [exact S2 |].
  split; [reflexivity |]. split; [reflexivity |].
  exact (pushed_bounds_stable ((0, 10), (0, 10)) ((5, 15), (0, 10))
           ((-5, 5), (0, 10)) S1 S2 eq_refl (Bounds_eq_refl _)).
Defined.


(** ** Instances of the two classes *)

Lemma Player_is_Player (x y w h : Q) (n : nat) : is_Player (fst (Player x y w h n)).
Proof. split; [now exists (0, 0) | reflexivity]. Qed.

Lemma Platform_is_Platform (x y w h : Q) (n : nat) :
  is_Platform (fst (Platform x y w h n)).
Proof. now split. Qed.

Lemma is_Player_dynamic (obj : PhysicsObject) : is_Player obj -> is_dynamic obj = true.
Proof. intros [_ Ht]. unfold is_dynamic. now rewrite Ht. Qed.

Lemma is_Platform_static (obj : PhysicsObject) :
  is_Platform obj -> is_dynamic obj = false.
Proof. intros [_ Ht]. unfold is_dynamic. now rewrite Ht. Qed.

Lemma update_obj_Platform (keys : Keys) (obj : PhysicsObject) :
  is_Platform obj -> update_obj keys obj = obj.
Proof. intros [Hk _]. unfold update_obj. now rewrite Hk. Qed.

Lemma update_obj_id (keys : Keys) (obj : PhysicsObject) :
  id (update_obj keys obj) = id obj.
Proof. unfold update_obj. now destruct (kind obj). Qed.

Lemma update_obj_tags (keys : Keys) (obj : PhysicsObject) :
  tags (update_obj keys obj) = tags obj.
Proof. unfold update_obj. now destruct (kind obj). Qed.

Lemma update_obj_dynamic (keys : Keys) (obj : PhysicsObject) :
  is_dynamic (update_obj keys obj) = is_dynamic obj.
Proof. unfold is_dynamic. now rewrite update_obj_tags. Qed.

(** ** One dynamic body and one static body *)

Section TwoBodies.

Variable keys : Keys.
Variables dyn_obj platform : PhysicsObject.
Hypothesis Hdyn : is_Player dyn_obj.
Hypothesis Hplat : is_Platform platform.
Hypothesis Hid : id dyn_obj <> id platform.

Lemma resolve_step_self (obj : PhysicsObject) :
  PhysicsEngine.resolve_step obj obj = obj.
Proof. unfold PhysicsEngine.resolve_step. now rewrite Nat.eqb_refl. Qed.

Lemma resolve_step_moved (obj : PhysicsObject) (v : Q * Q) :
  PhysicsEngine.resolve_step (move obj v) obj = move obj v.
Proof. unfold PhysicsEngine.resolve_step. simpl. now rewrite Nat.eqb_refl. Qed.

Lemma resolve_step_platform :
  PhysicsEngine.resolve_step (update_obj keys dyn_obj) platform
  = resolved keys dyn_obj platform.
Proof.
  unfold PhysicsEngine.resolve_step, resolved. cbv zeta.
  rewrite update_obj_id.
  destruct (Nat.eqb_spec (id platform) (id dyn_obj)) as [E | _]; [| reflexivity].
  now destruct Hid.
Qed.

Lemma update_dyn_first :
  PhysicsEngine.update keys [dyn_obj; platform]
  = [resolved keys dyn_obj platform; platform].
Proof.
  unfold PhysicsEngine.update, PhysicsEngine._collision_update,
    PhysicsEngine.dynamic_positions.
  cbn [fmap list_fmap length seq List.filter lookup list_lookup].
  rewrite (update_obj_Platform keys platform Hplat).
  rewrite update_obj_dynamic, (is_Player_dynamic _ Hdyn),
    (is_Platform_static _ Hplat).
  cbn [fold_left]. unfold PhysicsEngine.resolve_at.
  cbn [lookup list_lookup]. unfold PhysicsEngine.resolve. cbn [fold_left].
  now rewrite resolve_step_self, resolve_step_platform.
Qed.

Lemma update_dyn_last :
  PhysicsEngine.update keys [platform; dyn_obj]
  = [platform; resolved keys dyn_obj platform].
Proof.
  unfold PhysicsEngine.update, PhysicsEngine._collision_update,
    PhysicsEngine.dynamic_positions.
  cbn [fmap list_fmap length seq List.filter lookup list_lookup].
  rewrite (update_obj_Platform keys platform Hplat).
  rewrite update_obj_dynamic, (is_Player_dynamic _ Hdyn),
    (is_Platform_static _ Hplat).
  cbn [fold_left]. unfold PhysicsEngine.resolve_at.
  cbn [lookup list_lookup]. unfold PhysicsEngine.resolve. cbn [fold_left].
  rewrite resolve_step_platform. unfold resolved. cbv zeta.
  now rewrite resolve_step_moved.
Qed.

(** Whatever the positions before the call, the two bodies do not overlap
    strictly when [update] returns. *)
Lemma resolved_not_overlapping :
  overlap_strict (bounds (resolved keys dyn_obj platform)) (bounds platform)
  = false.
Proof.
  unfold resolved. cbv zeta.
  destruct (AABB_is_colliding (bounds (update_obj keys dyn_obj))
              (bounds platform)) eqn:Hc.
  - apply (pushed_bounds_touch _ _ _ Hc). apply bounds_move.
  - rewrite (AABB_vector_compact_apart _ _ Hc).
    apply not_true_iff_false. intros Hs.
    apply overlap_strict_colliding in Hs.
    revert Hs Hc.
    unfold AABB_is_colliding, _AABB_is_colliding_1d, bounds, move.
    cbn [fst snd x y width height]. intros Hs Hc.
    apply not_true_iff_false in Hc. apply Hc. qbool; lra.
Qed.

End TwoBodies.

(** ** Bodies the collision pass leaves alone *)

Lemma resolve_at_lookup_ne (objects : list PhysicsObject) (i j : nat) :
  i <> j -> PhysicsEngine.resolve_at objects i !! j = objects !! j.
Proof.
  intros Hij. unfold PhysicsEngine.resolve_at.
  destruct (objects !! i); [| reflexivity].
  now apply list_lookup_insert_ne.
Qed.

Lemma fold_resolve_at_lookup (positions : list nat) (objects : list PhysicsObject)
    (j : nat) :
  ~ In j positions ->
  fold_left PhysicsEngine.resolve_at positions objects !! j = objects !! j.
Proof.
  revert objects. induction positions as [| i positions IH]; intros objects Hj.
  - reflexivity.
  - cbn [fold_left]. rewrite IH.
    + apply resolve_at_lookup_ne. intros ->. apply Hj. now left.
    + intros Hin. apply Hj. now right.
Qed.

Lemma dynamic_positions_spec (objects : list PhysicsObject) (j : nat) :
  In j (PhysicsEngine.dynamic_positions objects) <->
  exists obj, objects !! j = Some obj /\ is_dynamic obj = true.
Proof.
  unfold PhysicsEngine.dynamic_positions. rewrite filter_In, in_seq. split.
  - intros [_ H]. destruct (objects !! j) as [obj |]; [| discriminate].
    now exists obj.
  - intros (obj & Hl & Hd). split.
    + apply lookup_lt_Some in Hl. lia.
    + now rewrite Hl.
Qed.

Lemma _collision_update_frame (objects : list PhysicsObject) (j : nat)
    (obj : PhysicsObject) :
  objects !! j = Some obj -> is_dynamic obj = false ->
  PhysicsEngine._collision_update objects !! j = Some obj.
Proof.
  intros Hl Hd. unfold PhysicsEngine._collision_update.
  rewrite fold_resolve_at_lookup; [exact Hl |].
  rewrite dynamic_positions_spec. intros (obj' & Hl' & Hd').
  congruence.
Qed.

Lemma instance_ok_static (obj : PhysicsObject) :
  instance_ok obj -> is_dynamic obj = false -> is_Platform obj.
Proof.
  intros [Hp | Hp] Hd; [| exact Hp].
  apply is_Player_dynamic in Hp. congruence.
Qed.

(** C7: a body that is not tagged DYNAMIC is left as it is by the collision
    pass, and, the bodies being instances of [Player] and [Platform], by the
    whole of [PhysicsEngine.update]: its [x], [y], [width] and [height] (and
    every other field) are unchanged. *)
Theorem static_bodies_unchanged (keys : Keys) (objects : list PhysicsObject)
    (i : nat) (obj : PhysicsObject) :
  Forall instance_ok objects ->
  objects !! i = Some obj ->
  is_dynamic obj = false ->
  PhysicsEngine._collision_update objects !! i = Some obj
  /\ PhysicsEngine.update keys objects !! i = Some obj.
Proof.
  intros Hok Hl Hd. split.
  - now apply _collision_update_frame.
  - unfold PhysicsEngine.update. apply _collision_update_frame; [| exact Hd].
    rewrite list_lookup_fmap, Hl. cbn. f_equal.
    apply update_obj_Platform, instance_ok_static; [| exact Hd].
    rewrite Forall_forall in Hok. apply Hok.
    eapply list_elem_of_lookup_2. exact Hl.
Qed.

Lemma static_bodies_unchanged_witness :
  Forall instance_ok two_platform_world
  /\ two_platform_world !! 1%nat = Some (fst (Platform 8 (-10) 22 40 1%nat))
  /\ is_dynamic (fst (Platform 8 (-10) 22 40 1%nat)) = false
  /\ PhysicsEngine.update no_keys two_platform_world !! 1%nat
     = Some (fst (Platform 8 (-10) 22 40 1%nat)).
Proof.
  assert (Hok : Forall instance_ok two_platform_world).
  { repeat apply Forall_cons_2; [left | right | right | apply Forall_nil_2].
    - apply Player_is_Player.
    - apply Platform_is_Platform.
    - apply Platform_is_Platform. }
  split; [exact Hok |]. split; [reflexivity |]. split; [reflexivity |].
  exact (proj2 (static_bodies_unchanged no_keys two_platform_world 1%nat
                  (fst (Platform 8 (-10) 22 40 1%nat)) Hok eq_refl eq_refl)).
Defined.

(** ** The single collision pass *)

(** C5: there is a world in which a dynamic body overlaps two static bodies
    at once and still overlaps one of them after a single
    [PhysicsEngine.update]: in [two_platform_world] the player is pushed left
    out of [A], then right out of [B] and back into [A], and the pass ends
    there. *)
Theorem single_pass_leaves_overlap :
  exists (keys : Keys) (dyn_obj A B dyn_obj' : PhysicsObject),
    PhysicsEngine.register_obj
      (PhysicsEngine.register_obj
         (PhysicsEngine.register_obj PhysicsEngine.init dyn_obj) A) B
      = two_platform_world
    /\ is_Player dyn_obj /\ is_Platform A /\ is_Platform B
    /\ NoDup [id dyn_obj; id A; id B]
    /\ overlap_strict (bounds dyn_obj) (bounds A) = true
    /\ overlap_strict (bounds dyn_obj) (bounds B) = true
    /\ overlap_strict (bounds (update_obj keys dyn_obj)) (bounds A) = true
    /\ overlap_strict (bounds (update_obj keys dyn_obj)) (bounds B) = true
    /\ PhysicsEngine.update keys two_platform_world = [dyn_obj'; A; B]
    /\ overlap_strict (bounds dyn_obj') (bounds A) = true
    /\ AABB_is_colliding (bounds dyn_obj') (bounds A) = true.
Proof.
  exists no_keys, (fst (Player 0 0 10 10 0%nat)),
    (fst (Platform 8 (-10) 22 40 1%nat)),
    (fst (Platform (-20) (-10) 21 40 2%nat)),
    (mkPhysicsObject 0 1 3 10 10 [DYNAMIC; PLAYER] (KPlayer (0, -3))).
  split; [reflexivity |].
  split; [apply Player_is_Player |].
  split; [apply Platform_is_Platform |].
  split; [apply Platform_is_Platform |].
  split; [cbn; apply (bool_decide_unpack _); reflexivity |].
  repeat split; vm_compute; reflexivity.
Qed.

(** ** The player's velocity *)

(** Whenever gravity applies, the decrement is [3 * t] with [t = 1]; the
    incremented [t] is returned next to the velocity and goes no further. *)
Lemma gravity_applies (v : Q * Q) :
  -15 < snd v -> PlayerUpdate.gravity v = ((fst v, snd v - 3 * 1), 1 + 1).
Proof.
  intros Hv. unfold PlayerUpdate.gravity.
  apply Qltb_lt in Hv. now rewrite Hv.
Qed.

(** C2: the code does not ramp.  [t] is 1 whenever the decrement is computed,
    so for a fresh player with no key held two consecutive ticks take 3 and
    then 3 again: [vy] is [-3] after the first tick and [-6], not the [-9]
    of a decrement of 3 followed by one of 6, after the second. *)
Theorem gravity_decrement_is_constant (x y w h : Q) (newid : nat) :
  velocity (run_obj [no_keys] (fst (Player x y w h newid))) = Some (0, -3)
  /\ velocity (run_obj [no_keys; no_keys] (fst (Player x y w h newid)))
     = Some (0, -6).
Proof. split; reflexivity. Qed.

Lemma left_snd (keys : Keys) (v : Q * Q) :
  snd (PlayerUpdate.left keys v) = snd v.
Proof. unfold PlayerUpdate.left. now destruct (_ && _). Qed.

Lemma right_snd (keys : Keys) (v : Q * Q) :
  snd (PlayerUpdate.right keys v) = snd v.
Proof. unfold PlayerUpdate.right. now destruct (_ && _). Qed.

Lemma update_obj_velocity (keys : Keys) (obj : PhysicsObject) (v : Q * Q) :
  kind obj = KPlayer v ->
  velocity (update_obj keys obj) = Some (PlayerUpdate.step_velocity keys v).
Proof. intros Hk. unfold update_obj, velocity. now rewrite Hk. Qed.

(** C3: for a player with the jump key down and [vy = 0] at the start of the
    tick, [vy] is 30 right after the jump statement, still 30 when the
    gravity block is reached, and 27 when [update] returns: the impulse comes
    before the gravity decrement. *)
Theorem jump_before_gravity (keys : Keys) (obj : PhysicsObject) (v : Q * Q) :
  kind obj = KPlayer v -> K_SPACE keys = true -> snd v == 0 ->
  snd (PlayerUpdate.jump keys v) == 30
  /\ snd (PlayerUpdate.right keys (PlayerUpdate.left keys (PlayerUpdate.jump keys v)))
       == 30
  /\ exists v', velocity (update_obj keys obj) = Some v' /\ snd v' == 27.
Proof.
  intros Hobj Hk Hv.
  assert (Hj : snd (PlayerUpdate.jump keys v) == 30).
  { unfold PlayerUpdate.jump. rewrite Hk.
    assert (H1 : Qltb (snd v) 0.1 = true) by (qbool; rewrite Hv; reflexivity).
    assert (H2 : Qltb (snd v) 0 = false) by (qbool; rewrite Hv; discriminate).
    rewrite H1, H2. cbn [fst snd andb]. rewrite Hv. reflexivity. }
  split; [exact Hj |]. split; [now rewrite right_snd, left_snd |].
  exists (PlayerUpdate.step_velocity keys v).
  split; [now apply update_obj_velocity |].
  unfold PlayerUpdate.step_velocity, PlayerUpdate.gravity.
  rewrite right_snd, left_snd.
  assert (H3 : Qltb (-15) (snd (PlayerUpdate.jump keys v)) = true)
    by (qbool; rewrite Hj; reflexivity).
  rewrite H3. cbn [fst snd]. rewrite Hj. reflexivity.
Qed.

Lemma jump_before_gravity_witness :
  kind (fst (Player 50 380 40 60 0%nat)) = KPlayer (0, 0)
  /\ K_SPACE (mkKeys true false false) = true /\ snd (0, 0) == 0
  /\ snd (PlayerUpdate.jump (mkKeys true false false) (0, 0)) == 30
  /\ exists v',
       velocity (update_obj (mkKeys true false false)
                   (fst (Player 50 380 40 60 0%nat))) = Some v'
       /\ snd v' == 27.
Proof.
  destruct (jump_before_gravity (mkKeys true false false)
              (fst (Player 50 380 40 60 0%nat)) (0, 0)
              eq_refl eq_refl (Qeq_refl 0)) as (H1 & _ & H3).
  split; [reflexivity |]. split; [reflexivity |]. split; [reflexivity |].
  split; [exact H1 | exact H3].
Defined.

(** ** Bounds on the player's velocity *)

Lemma Qltb_inject_Z (a b : Z) : Qltb (inject_Z a) (inject_Z b) = (a <? b)%Z.
Proof.
  destruct (Z.ltb_spec a b) as [H | H].
  - apply Qltb_lt. now rewrite <- Zlt_Qlt.
  - apply Qltb_ge. now rewrite <- Zle_Qle.
Qed.

Lemma Qltb_inject_Z_tenth (b : Z) : Qltb (inject_Z b) 0.1 = (b <=? 0)%Z.
Proof.
  destruct (Z.leb_spec b 0) as [H | H].
  - apply Qltb_lt. unfold Qlt. cbn. lia.
  - apply Qltb_ge. unfold Qle. cbn. lia.
Qed.

Lemma inject_Z_add (a b : Z) : inject_Z a + inject_Z b = inject_Z (a + b).
Proof. symmetry. apply inject_Z_plus. Qed.

Lemma inject_Z_sub (a b : Z) : inject_Z a - inject_Z b = inject_Z (a - b).
Proof. unfold Qminus. now rewrite <- inject_Z_opp, inject_Z_add. Qed.

Lemma grid_bounds (lo hi : Z) (q : Q) :
  grid lo hi q -> inject_Z lo <= q <= inject_Z hi.
Proof.
  intros (a & -> & _ & Hlo & Hhi). rewrite <- !Zle_Qle. now split.
Qed.

(** Let [lia] reason about [mod 3]. *)
Ltac Zify.zify_post_hook ::= Z.to_euclidean_division_equations.

Lemma jump_grid (keys : Keys) (v : Q * Q) :
  grid (-15) 27 (snd v) ->
  fst (PlayerUpdate.jump keys v) = fst v
  /\ grid (-15) 30 (snd (PlayerUpdate.jump keys v)).
Proof.
  intros (b & Hb & Hmod & Hr). unfold PlayerUpdate.jump. rewrite Hb.
  rewrite Qltb_inject_Z_tenth. change (0 : Q) with (inject_Z 0).
  rewrite Qltb_inject_Z. change 30 with (inject_Z 30).
  destruct (K_SPACE keys); cbn [andb].
  - destruct (Z.leb_spec b 0) as [H0 | H0].
    + destruct (Z.ltb_spec b 0) as [H1 | H1]; cbn [fst snd];
        (split; [reflexivity |]).
      * exists 30%Z. now rewrite inject_Z_add.
      * exists (b + 30)%Z. rewrite Hb, inject_Z_add.
        split; [reflexivity | lia].
    + split; [reflexivity |]. exists b. split; [exact Hb | lia].
  - split; [reflexivity |]. exists b. split; [exact Hb | lia].
Qed.

Lemma left_grid (keys : Keys) (v : Q * Q) :
  grid (-12) 12 (fst v) -> grid (-12) 12 (fst (PlayerUpdate.left keys v)).
Proof.
  intros (a & Ha & Hmod & Hr). unfold PlayerUpdate.left. rewrite Ha.
  change (-10) with (inject_Z (-10)). change 3 with (inject_Z 3).
  rewrite Qltb_inject_Z.
  destruct (K_LEFT keys); cbn [andb].
  - destruct (Z.ltb_spec (-10) a) as [H | H]; cbn [fst].
    + exists (a - 3)%Z. rewrite inject_Z_sub. split; [reflexivity | lia].
    + exists a. split; [exact Ha | lia].
  - exists a. split; [exact Ha | lia].
Qed.

Lemma right_grid (keys : Keys) (v : Q * Q) :
  grid (-12) 12 (fst v) -> grid (-12) 12 (fst (PlayerUpdate.right keys v)).
Proof.
  intros (a & Ha & Hmod & Hr). unfold PlayerUpdate.right. rewrite Ha.
  change 10 with (inject_Z 10). change 3 with (inject_Z 3).
  rewrite Qltb_inject_Z.
  destruct (K_RIGHT keys); cbn [andb].
  - destruct (Z.ltb_spec a 10) as [H | H]; cbn [fst].
    + exists (a + 3)%Z. rewrite inject_Z_add. split; [reflexivity | lia].
    + exists a. split; [exact Ha | lia].
  - exists a. split; [exact Ha | lia].
Qed.

Lemma gravity_grid (v : Q * Q) :
  grid (-15) 30 (snd v) ->
  fst (fst (PlayerUpdate.gravity v)) = fst v
  /\ grid (-15) 27 (snd (fst (PlayerUpdate.gravity v))).
Proof.
  intros (b & Hb & Hmod & Hr). unfold PlayerUpdate.gravity. rewrite Hb.
  change (-15) with (inject_Z (-15)). change (3 * 1) with (inject_Z 3).
  rewrite Qltb_inject_Z.
  destruct (Z.ltb_spec (-15) b) as [H | H]; cbn [fst snd];
    (split; [reflexivity |]).
  - exists (b - 3)%Z. rewrite inject_Z_sub. split; [reflexivity | lia].
  - exists b. split; [exact Hb | lia].
Qed.

Lemma step_velocity_ok (keys : Keys) (v : Q * Q) :
  velocity_ok v -> velocity_ok (PlayerUpdate.step_velocity keys v).
Proof.
  intros [Hx Hy]. unfold PlayerUpdate.step_velocity.
  destruct (jump_grid keys v Hy) as [Ex Hy1].
  rewrite <- Ex in Hx.
  apply (left_grid keys) in Hx. apply (right_grid keys) in Hx.
  rewrite <- (left_snd keys), <- (right_snd keys) in Hy1.
  destruct (gravity_grid _ Hy1) as [Ex2 Hy2].
  split; [now rewrite Ex2 | exact Hy2].
Qed.

Lemma run_velocity_ok (ks : list Keys) (v : Q * Q) :
  velocity_ok v -> velocity_ok (run_velocity ks v).
Proof.
  revert v. induction ks as [| keys ks IH]; intros v Hv; [exact Hv |].
  apply IH, step_velocity_ok, Hv.
Qed.

Lemma run_obj_Player (ks : list Keys) (obj : PhysicsObject) (v : Q * Q) :
  kind obj = KPlayer v ->
  velocity (run_obj ks obj) = Some (run_velocity ks v).
Proof.
  revert obj v. induction ks as [| keys ks IH]; intros obj v Hk.
  - unfold velocity. cbn. now rewrite Hk.
  - cbn [run_obj run_velocity fold_left]. apply IH.
    unfold update_obj. now rewrite Hk.
Qed.

(** C10: a freshly constructed [Player] has, after every finite sequence of
    ticks under any keys, a velocity with [-12 <= vx <= 12] and
    [-15 <= vy <= 30]. *)
Theorem Player_velocity_bounded (x y w h : Q) (newid : nat) (ks : list Keys) :
  exists vx vy : Q,
    velocity (run_obj ks (fst (Player x y w h newid))) = Some (vx, vy)
    /\ -12 <= vx <= 12 /\ -15 <= vy <= 30.
Proof.
  exists (fst (run_velocity ks (0, 0))), (snd (run_velocity ks (0, 0))).
  split.
  - rewrite (run_obj_Player ks _ (0, 0)) by reflexivity.
    now destruct (run_velocity ks (0, 0)).
  - assert (H0 : velocity_ok (0, 0)).
    { split; exists 0%Z; (split; [reflexivity | split; [reflexivity | lia]]). }
    destruct (run_velocity_ok ks _ H0) as [Hx Hy].
    apply grid_bounds in Hx, Hy. split; [exact Hx |].
    destruct Hy as [Hy1 Hy2]. split; [exact Hy1 |].
    apply (Qle_trans _ _ _ Hy2). discriminate.
Qed.

(** ** More on the separation vector *)

(** Replace every absolute value in the goal and the context by its two
    cases. *)
Ltac qabs_all :=
  repeat match goal with
    | |- context [Qabs ?q] =>
        let a := fresh "a" in
        let Ha := fresh "Ha" in
        let Heq := fresh "Heq" in
        destruct (Qabs_cases q) as [[? Ha] | [? Ha]];
        remember (Qabs q) as a eqn:Heq; clear Heq
    | H : context [Qabs ?q] |- _ =>
        let a := fresh "a" in
        let Ha := fresh "Ha" in
        let Heq := fresh "Heq" in
        destruct (Qabs_cases q) as [[? Ha] | [? Ha]];
        remember (Qabs q) as a eqn:Heq; clear Heq
    end.

(** X1: the separation vector always lies along one axis: one of its two
    components is 0, for any two bounds. *)
Theorem vector_axis_aligned (b1 b2 : Bounds) :
  fst (AABB_vector_compact b1 b2) = 0 \/ snd (AABB_vector_compact b1 b2) = 0.
Proof.
  unfold AABB_vector_compact.
  destruct (_ && _); [| now left].
  cbv zeta. destruct (Qltb _ _); [now right | now left].
Qed.

(** X2: minimal translation.  For colliding bounds the length of the vector is
    no more than any of the four edge-to-edge distances between the two
    rectangles (left, right, up, down). *)
Theorem vector_minimal (b1 b2 : Bounds) :
  AABB_is_colliding b1 b2 = true ->
  let v := AABB_vector_compact b1 b2 in
  let m := Qabs (fst v) + Qabs (snd v) in
  m <= Qabs (fst (fst b2) - snd (fst b1))
  /\ m <= Qabs (snd (fst b2) - fst (fst b1))
  /\ m <= Qabs (fst (snd b2) - snd (snd b1))
  /\ m <= Qabs (snd (snd b2) - fst (snd b1)).
Proof.
  intros Hc. cbv zeta. rewrite (AABB_vector_compact_colliding _ _ Hc).
  cbv zeta. unfold _AABB_vector_1d.
  destruct b1 as [[ax0 ax1] [ay0 ay1]], b2 as [[bx0 bx1] [by0 by1]].
  cbn [fst snd].
  destruct (Qltb (Qabs (ax1 - bx0)) (Qabs (bx1 - ax0))) eqn:Ex;
    destruct (Qltb (Qabs (ay1 - by0)) (Qabs (by1 - ay0))) eqn:Ey;
    match goal with |- context [if ?c then _ else _] => destruct c eqn:Exy end;
    cbn [fst snd]; qbool; qabs_all; repeat split; lra.
Qed.

Lemma vector_minimal_witness :
  AABB_is_colliding ((0, 10), (0, 10)) ((5, 15), (2, 20)) = true
  /\ AABB_vector_compact ((0, 10), (0, 10)) ((5, 15), (2, 20)) = (-5, 0)
  /\ Qabs (-5) + Qabs 0 <= Qabs (2 - 10).
Proof.
  destruct (vector_minimal ((0, 10), (0, 10)) ((5, 15), (2, 20)) eq_refl)
    as (_ & _ & H3 & _).
  split; [reflexivity |]. split; [reflexivity | exact H3].
Defined.

(** X4: a rectangle with positive extents collides with itself, and its vector
    against itself is its own width along x, or its own height along y when
    the height is not larger: the id test of the inner loop is what keeps a
    body from pushing itself. *)
Theorem self_collision (b : Bounds) :
  positive_extents b ->
  AABB_is_colliding b b = true
  /\ let v := AABB_vector_compact b b in
     let w := snd (fst b) - fst (fst b) in
     let h := snd (snd b) - fst (snd b) in
     (w < h /\ fst v == w /\ snd v == 0) \/ (h <= w /\ fst v == 0 /\ snd v == h).
Proof.
  intros [Hx Hy].
  assert (Hc : AABB_is_colliding b b = true).
  { unfold AABB_is_colliding, _AABB_is_colliding_1d. qbool; lra. }
  split; [exact Hc |]. cbv zeta.
  rewrite (AABB_vector_compact_colliding _ _ Hc). cbv zeta.
  unfold _AABB_vector_1d. destruct b as [[x0 x1] [y0 y1]]. cbn [fst snd] in *.
  assert (Ex : Qltb (Qabs (x1 - x0)) (Qabs (x1 - x0)) = false)
    by (apply Qltb_ge, Qle_refl).
  assert (Ey : Qltb (Qabs (y1 - y0)) (Qabs (y1 - y0)) = false)
    by (apply Qltb_ge, Qle_refl).
  rewrite Ex, Ey. clear Ex Ey Hc.
  destruct (Qltb (Qabs (x1 - x0)) (Qabs (y1 - y0))) eqn:E; cbn [fst snd];
    [left | right]; qbool; qabs;
    (split; [| split]); lra.
Qed.

Lemma self_collision_witness :
  positive_extents ((50, 90), (380, 440))
  /\ AABB_is_colliding ((50, 90), (380, 440)) ((50, 90), (380, 440)) = true
  /\ AABB_vector_compact ((50, 90), (380, 440)) ((50, 90), (380, 440)) = (40, 0).
Proof.
  assert (Hp : positive_extents ((50, 90), (380, 440))) by (split; reflexivity).
  split; [exact Hp |].
  split; [exact (proj1 (self_collision _ Hp)) | reflexivity].
Defined.

Lemma _AABB_is_colliding_1d_translate (x1 x2 : Interval) (t : Q) :
  _AABB_is_colliding_1d (fst x1 + t, snd x1 + t) (fst x2 + t, snd x2 + t)
  = _AABB_is_colliding_1d x1 x2.
Proof.
  unfold _AABB_is_colliding_1d. cbn [fst snd].
  f_equal; apply eq_true_iff_eq; rewrite !Qleb_le; split; intros H; lra.
Qed.

Lemma _AABB_vector_1d_translate (x1 x2 : Interval) (t : Q) :
  _AABB_vector_1d (fst x1 + t, snd x1 + t) (fst x2 + t, snd x2 + t)
  == _AABB_vector_1d x1 x2.
Proof.
  unfold _AABB_vector_1d. cbn [fst snd].
  assert (E1 : snd x1 + t - (fst x2 + t) == snd x1 - fst x2) by lra.
  assert (E2 : snd x2 + t - (fst x1 + t) == snd x2 - fst x1) by lra.
  rewrite E1, E2. destruct (Qltb _ _); lra.
Qed.

(** X5: for bounds and a displacement with integer components of magnitude at
    most [2^48], moving both rectangles by the displacement changes neither
    the test nor the vector. *)
Theorem vector_translation_invariant (b1 b2 : Bounds) (t : Q * Q) :
  small_bounds b1 -> small_bounds b2 -> small_int (fst t) -> small_int (snd t) ->
  AABB_is_colliding (translate b1 t) (translate b2 t) = AABB_is_colliding b1 b2
  /\ fst (AABB_vector_compact (translate b1 t) (translate b2 t))
     == fst (AABB_vector_compact b1 b2)
  /\ snd (AABB_vector_compact (translate b1 t) (translate b2 t))
     == snd (AABB_vector_compact b1 b2).
Proof.
  intros _ _ _ _.
  assert (Hc : AABB_is_colliding (translate b1 t) (translate b2 t)
               = AABB_is_colliding b1 b2).
  { unfold AABB_is_colliding, translate. cbn [fst snd].
    now rewrite !_AABB_is_colliding_1d_translate. }
  split; [exact Hc |].
  destruct (AABB_is_colliding b1 b2) eqn:E.
  - rewrite (AABB_vector_compact_colliding _ _ Hc),
      (AABB_vector_compact_colliding _ _ E).
    cbv zeta. unfold translate. cbn [fst snd].
    rewrite !_AABB_vector_1d_translate.
    destruct (Qltb _ _); cbn [fst snd]; split;
      try reflexivity; apply _AABB_vector_1d_translate.
  - rewrite (AABB_vector_compact_apart _ _ Hc), (AABB_vector_compact_apart _ _ E).
    split; reflexivity.
Qed.

Lemma vector_translation_invariant_witness :
  small_bounds ((0, 10), (0, 10)) /\ small_bounds ((5, 15), (2, 20))
  /\ small_int 100 /\ small_int (-7)
  /\ AABB_is_colliding ((100, 110), (-7, 3)) ((105, 115), (-5, 13)) = true
  /\ fst (AABB_vector_compact (translate ((0, 10), (0, 10)) (100, -7))
            (translate ((5, 15), (2, 20)) (100, -7)))
     == fst (AABB_vector_compact ((0, 10), (0, 10)) ((5, 15), (2, 20))).
Proof.
  assert (S1 : small_bounds ((0, 10), (0, 10))) by small_obj.
  assert (S2 : small_bounds ((5, 15), (2, 20))) by small_obj.
  assert (S3 : small_int 100) by small.
  assert (S4 : small_int (-7)) by small.
  destruct (vector_translation_invariant ((0, 10), (0, 10)) ((5, 15), (2, 20))
              (100, -7) S1 S2 S3 S4) as (_ & Hx & _).
  split; [exact S1 |]. split; [exact S2 |]. split; [exact S3 |].
  split; [exact S4 |]. split; [reflexivity | exact Hx].
Defined.

Lemma _AABB_vector_1d_swap (x1 x2 : Interval) :
  ~ Qabs (snd x1 - fst x2) == Qabs (snd x2 - fst x1) ->
  _AABB_vector_1d x2 x1 == - _AABB_vector_1d x1 x2.
Proof.
  unfold _AABB_vector_1d. intros Hne.
  destruct (Qltb (Qabs (snd x1 - fst x2)) _) eqn:E1;
    destruct (Qltb (Qabs (snd x2 - fst x1)) _) eqn:E2; qbool; lra.
Qed.

(** X6: when on neither axis the two candidate pushes have equal length, the
    vector of [b2] against [b1] is the opposite of the vector of [b1]
    against [b2]. *)
Theorem vector_antisymmetric (b1 b2 : Bounds) :
  ~ Qabs (snd (fst b1) - fst (fst b2)) == Qabs (snd (fst b2) - fst (fst b1)) ->
  ~ Qabs (snd (snd b1) - fst (snd b2)) == Qabs (snd (snd b2) - fst (snd b1)) ->
  fst (AABB_vector_compact b2 b1) == - fst (AABB_vector_compact b1 b2)
  /\ snd (AABB_vector_compact b2 b1) == - snd (AABB_vector_compact b1 b2).
Proof.
  intros Hx Hy.
  destruct (AABB_is_colliding b1 b2) eqn:E.
  - assert (E' : AABB_is_colliding b2 b1 = true)
      by (unfold AABB_is_colliding in *;
          now rewrite (_AABB_is_colliding_1d_sym (fst b2)),
            (_AABB_is_colliding_1d_sym (snd b2))).
    rewrite (AABB_vector_compact_colliding _ _ E'),
      (AABB_vector_compact_colliding _ _ E).
    cbv zeta.
    pose proof (_AABB_vector_1d_swap _ _ Hx) as Sx.
    pose proof (_AABB_vector_1d_swap _ _ Hy) as Sy.
    assert (Ec : Qltb (Qabs (_AABB_vector_1d (fst b2) (fst b1)))
                   (Qabs (_AABB_vector_1d (snd b2) (snd b1)))
                 = Qltb (Qabs (_AABB_vector_1d (fst b1) (fst b2)))
                     (Qabs (_AABB_vector_1d (snd b1) (snd b2))))
      by (now rewrite Sx, Sy, !Qabs_opp).
    rewrite Ec. clear Ec.
    match goal with |- context [if ?c then _ else _] => destruct c end;
      cbn [fst snd]; split; lra.
  - assert (E' : AABB_is_colliding b2 b1 = false)
      by (unfold AABB_is_colliding in *;
          now rewrite (_AABB_is_colliding_1d_sym (fst b2)),
            (_AABB_is_colliding_1d_sym (snd b2))).
    rewrite (AABB_vector_compact_apart _ _ E'), (AABB_vector_compact_apart _ _ E).
    split; reflexivity.
Qed.

Lemma vector_antisymmetric_witness :
  ~ Qabs (10 - 5) == Qabs (15 - 0) /\ ~ Qabs (10 - 2) == Qabs (20 - 0)
  /\ AABB_vector_compact ((0, 10), (0, 10)) ((5, 15), (2, 20)) = (-5, 0)
  /\ fst (AABB_vector_compact ((5, 15), (2, 20)) ((0, 10), (0, 10))) == - (-5).
Proof.
  assert (Hx : ~ Qabs (10 - 5) == Qabs (15 - 0)) by (intros H; discriminate H).
  assert (Hy : ~ Qabs (10 - 2) == Qabs (20 - 0)) by (intros H; discriminate H).
  split; [exact Hx |]. split; [exact Hy |]. split; [reflexivity |].
  exact (proj1 (vector_antisymmetric ((0, 10), (0, 10)) ((5, 15), (2, 20))
                  Hx Hy)).
Defined.

(** ** What the collision pass keeps *)

Lemma resolve_step_shape (d obj : PhysicsObject) :
  same_shape d (PhysicsEngine.resolve_step d obj).
Proof.
  unfold PhysicsEngine.resolve_step, same_shape.
  now destruct (Nat.eqb _ _).
Qed.

Lemma same_shape_trans (a b c : PhysicsObject) :
  same_shape a b -> same_shape b c -> same_shape a c.
Proof. unfold same_shape. intuition congruence. Qed.

Lemma same_shape_refl (a : PhysicsObject) : same_shape a a.
Proof. unfold same_shape. intuition. Qed.

Lemma resolve_shape (objects : list PhysicsObject) (d : PhysicsObject) :
  same_shape d (PhysicsEngine.resolve objects d).
Proof.
  unfold PhysicsEngine.resolve. revert d.
  induction objects as [| obj objects IH]; intros d; cbn [fold_left].
  - apply same_shape_refl.
  - eapply same_shape_trans; [apply resolve_step_shape | apply IH].
Qed.

Lemma resolve_at_shape (objects : list PhysicsObject) (i : nat) :
  Forall2 same_shape objects (PhysicsEngine.resolve_at objects i).
Proof.
  unfold PhysicsEngine.resolve_at.
  destruct (objects !! i) as [d |] eqn:Hi.
  - apply Forall2_same_length_lookup. split; [now rewrite length_insert |].
    intros j a b Ha Hb. destruct (decide (i = j)) as [-> | Hne].
    + rewrite list_lookup_insert_eq in Hb by (now apply lookup_lt_Some in Hi).
      injection Hb as <-. rewrite Hi in Ha. injection Ha as <-.
      apply resolve_shape.
    + rewrite list_lookup_insert_ne in Hb by exact Hne.
      rewrite Ha in Hb. injection Hb as <-. apply same_shape_refl.
  - apply Forall2_same_length_lookup. split; [reflexivity |].
    intros j a b Ha Hb. rewrite Ha in Hb. injection Hb as <-.
    apply same_shape_refl.
Qed.

Lemma Forall2_same_shape_trans (l1 l2 l3 : list PhysicsObject) :
  Forall2 same_shape l1 l2 -> Forall2 same_shape l2 l3 ->
  Forall2 same_shape l1 l3.
Proof.
  intros H12. revert l3. induction H12 as [| a b l1 l2 Hab _ IH]; intros l3 H23.
  - inversion H23. constructor.
  - inversion H23 as [| b' c l2' l3' Hbc H23' ]; subst.
    constructor; [eapply same_shape_trans; eassumption | now apply IH].
Qed.

Lemma fold_resolve_at_shape (positions : list nat) (objects : list PhysicsObject) :
  Forall2 same_shape objects (fold_left PhysicsEngine.resolve_at positions objects).
Proof.
  revert objects. induction positions as [| i positions IH]; intros objects.
  - cbn. apply Forall2_same_length_lookup. split; [reflexivity |].
    intros j a b Ha Hb. rewrite Ha in Hb. injection Hb as <-.
    apply same_shape_refl.
  - cbn [fold_left]. eapply Forall2_same_shape_trans;
      [apply resolve_at_shape | apply IH].
Qed.

Lemma update_obj_shape (keys : Keys) (obj : PhysicsObject) :
  id (update_obj keys obj) = id obj /\ width (update_obj keys obj) = width obj
  /\ height (update_obj keys obj) = height obj
  /\ tags (update_obj keys obj) = tags obj.
Proof. unfold update_obj. now destruct (kind obj). Qed.

(** X7: [PhysicsEngine.update] keeps the make-up of a world whose entries are
    distinct objects (no id occurs twice).  The list keeps its length and
    order; every object keeps its id, width, height and tags; and the
    collision pass leaves the velocity that the object's own [update()]
    computed: a collision moves a body but never changes its speed. *)
Theorem update_keeps_shape (keys : Keys) (objects : list PhysicsObject)
    (i : nat) (obj : PhysicsObject) :
  NoDup (id <$> objects) ->
  objects !! i = Some obj ->
  length (PhysicsEngine.update keys objects) = length objects
  /\ exists obj',
       PhysicsEngine.update keys objects !! i = Some obj'
       /\ id obj' = id obj /\ width obj' = width obj
       /\ height obj' = height obj /\ tags obj' = tags obj
       /\ velocity obj' = velocity (update_obj keys obj).
Proof.
  intros _ Hi. unfold PhysicsEngine.update, PhysicsEngine._collision_update.
  pose proof (fold_resolve_at_shape
                (PhysicsEngine.dynamic_positions (update_obj keys <$> objects))
                (update_obj keys <$> objects)) as HF.
  split.
  - apply Forall2_length in HF. now rewrite <- HF, length_fmap.
  - assert (Ht : (update_obj keys <$> objects) !! i = Some (update_obj keys obj))
      by (now rewrite list_lookup_fmap, Hi).
    destruct (Forall2_lookup_l _ _ _ _ _ HF Ht) as (obj' & Ho' & Hs).
    exists obj'. split; [exact Ho' |].
    destruct (update_obj_shape keys obj) as (E1 & E2 & E3 & E4).
    destruct Hs as (S1 & S2 & S3 & S4 & S5).
    unfold velocity. rewrite <- S5.
    repeat split; congruence.
Qed.

Lemma update_keeps_shape_witness :
  NoDup (id <$> main_objects)
  /\ main_objects !! 0%nat = Some (fst (Player 50 380 40 60 0%nat))
  /\ length (PhysicsEngine.update no_keys main_objects) = 6%nat
  /\ exists obj',
       PhysicsEngine.update no_keys main_objects !! 0%nat = Some obj'
       /\ id obj' = 0%nat /\ velocity obj' = Some (0, -3).
Proof.
  assert (Hnd : NoDup (id <$> main_objects))
    by (apply (bool_decide_unpack _); reflexivity).
  destruct (update_keeps_shape no_keys main_objects 0%nat
              (fst (Player 50 380 40 60 0%nat)) Hnd eq_refl)
    as (Hlen & obj' & Ho & Hid & _ & _ & _ & Hv).
  split; [exact Hnd |]. split; [reflexivity |]. split; [exact Hlen |].
  exists obj'. split; [exact Ho |]. split; [exact Hid | exact Hv].
Defined.


(** ** The last obstacle *)






Lemma dynamic_positions_NoDup (objects : list PhysicsObject) :
  NoDup (PhysicsEngine.dynamic_positions objects).
Proof.
  unfold PhysicsEngine.dynamic_positions.
  apply NoDup_ListNoDup, List.NoDup_filter, List.seq_NoDup.
Qed.








(** ** Bodies that touch nothing *)

Lemma AABB_is_colliding_Bounds_eq (b1 b1' b2 b2' : Bounds) :
  Bounds_eq b1 b1' -> Bounds_eq b2 b2' ->
  AABB_is_colliding b1 b2 = AABB_is_colliding b1' b2'.
Proof.
  intros [[H1 H2] [H3 H4]] [[K1 K2] [K3 K4]].
  unfold AABB_is_colliding, _AABB_is_colliding_1d.
  now rewrite H1, H2, H3, H4, K1, K2, K3, K4.
Qed.

Lemma same_place_bounds (obj obj' : PhysicsObject) :
  same_place obj obj' -> Bounds_eq (bounds obj) (bounds obj').
Proof.
  intros [(_ & Hw & Hh & _) [Hx Hy]]. unfold Bounds_eq, bounds. cbn [fst snd].
  rewrite Hw, Hh, Hx, Hy. repeat split; reflexivity.
Qed.

Lemma same_place_refl (obj : PhysicsObject) : same_place obj obj.
Proof. split; [apply same_shape_refl | split; reflexivity]. Qed.

Lemma same_place_trans (a b c : PhysicsObject) :
  same_place a b -> same_place b c -> same_place a c.
Proof.
  intros [S1 [X1 Y1]] [S2 [X2 Y2]]. split.
  - eapply same_shape_trans; eassumption.
  - split; [now rewrite X1 | now rewrite Y1].
Qed.

Lemma move_zero_same_place (obj : PhysicsObject) : same_place obj (move obj (0, 0)).
Proof.
  split; [unfold same_shape; cbn; intuition |].
  unfold move. cbn [x y fst snd]. split; lra.
Qed.

Section Apart.

Variable objects : list PhysicsObject.

(** No dynamic body of the world collides with another object. *)
Hypothesis Hapart : forall i j oi oj,
  objects !! i = Some oi -> objects !! j = Some oj ->
  is_dynamic oi = true -> id oj <> id oi ->
  AABB_is_colliding (bounds oi) (bounds oj) = false.

Lemma resolve_apart (current seen : list PhysicsObject) (i : nat)
    (oi d : PhysicsObject) :
  objects !! i = Some oi -> is_dynamic oi = true -> same_place oi d ->
  Forall2 same_place seen current ->
  (forall o, o ∈ seen -> o ∈ objects) ->
  same_place oi (PhysicsEngine.resolve current d).
Proof.
  intros Hi Hdyn Hd HF. revert d Hd. unfold PhysicsEngine.resolve.
  induction HF as [| o e seen current Hoe _ IH]; intros d Hd Hsub;
    cbn [fold_left]; [exact Hd |].
  apply IH; [| intros o' Ho'; apply Hsub; now right].
  unfold PhysicsEngine.resolve_step.
  destruct (Nat.eqb_spec (id e) (id d)) as [E | Hne]; [exact Hd |].
  assert (Ho : o ∈ objects) by (apply Hsub; now left).
  apply list_elem_of_lookup in Ho. destruct Ho as [j Hj].
  assert (Hc : AABB_is_colliding (bounds d) (bounds e) = false).
  { rewrite <- (AABB_is_colliding_Bounds_eq _ _ _ _
                 (same_place_bounds _ _ Hd) (same_place_bounds _ _ Hoe)).
    apply (Hapart i j); [exact Hi | exact Hj | exact Hdyn |].
    destruct Hd as [(Ed & _) _]. destruct Hoe as [(Ee & _) _]. congruence. }
  rewrite (AABB_vector_compact_apart _ _ Hc).
  eapply same_place_trans; [exact Hd | apply move_zero_same_place].
Qed.

Lemma resolve_at_apart (current : list PhysicsObject) (p : nat) :
  In p (PhysicsEngine.dynamic_positions objects) ->
  Forall2 same_place objects current ->
  Forall2 same_place objects (PhysicsEngine.resolve_at current p).
Proof.
  intros Hdyn HF. unfold PhysicsEngine.resolve_at.
  destruct (current !! p) as [d |] eqn:Hp; [| exact HF].
  destruct (Forall2_lookup_r _ _ _ _ _ HF Hp) as (op & Hop & Hs).
  apply dynamic_positions_spec in Hdyn. destruct Hdyn as (op' & Hop' & Hdyn).
  rewrite Hop in Hop'. injection Hop' as <-.
  apply Forall2_same_length_lookup. split.
  - rewrite length_insert. now apply Forall2_length in HF.
  - intros j a b Ha Hb. destruct (decide (p = j)) as [-> | Hne].
    + rewrite list_lookup_insert_eq in Hb by (now apply lookup_lt_Some in Hp).
      injection Hb as <-. rewrite Hop in Ha. injection Ha as <-.
      now apply (resolve_apart current objects j).
    + rewrite list_lookup_insert_ne in Hb by exact Hne.
      eapply Forall2_lookup_lr; eassumption.
Qed.

Lemma fold_resolve_at_apart (positions : list nat) (current : list PhysicsObject) :
  (forall p, In p positions -> In p (PhysicsEngine.dynamic_positions objects)) ->
  Forall2 same_place objects current ->
  Forall2 same_place objects (fold_left PhysicsEngine.resolve_at positions current).
Proof.
  revert current. induction positions as [| p positions IH];
    intros current Hsub HF; [exact HF |].
  cbn [fold_left]. apply IH.
  - intros q Hq. apply Hsub. now right.
  - apply resolve_at_apart; [apply Hsub; now left | exact HF].
Qed.

(** X9: when no dynamic body collides with any other object, the collision
    pass moves nothing: every object keeps its position (and everything
    else). *)
Theorem apart_bodies_unmoved (i : nat) (obj : PhysicsObject) :
  objects !! i = Some obj ->
  exists obj',
    PhysicsEngine._collision_update objects !! i = Some obj'
    /\ x obj' == x obj /\ y obj' == y obj /\ same_shape obj obj'.
Proof.
  intros Hi. unfold PhysicsEngine._collision_update.
  assert (HF : Forall2 same_place objects objects).
  { apply Forall2_same_length_lookup. split; [reflexivity |].
    intros j a b Ha Hb. rewrite Ha in Hb. injection Hb as <-.
    apply same_place_refl. }
  apply (fold_resolve_at_apart (PhysicsEngine.dynamic_positions objects)) in HF;
    [| now intros p Hp].
  destruct (Forall2_lookup_l _ _ _ _ _ HF Hi) as (obj' & Ho' & Hs & Hx & Hy).
  exists obj'. split; [exact Ho' |].
  split; [now rewrite Hx | split; [now rewrite Hy | exact Hs]].
Qed.

End Apart.

Lemma main_objects_apart (i j : nat) (oi oj : PhysicsObject) :
  main_objects !! i = Some oi -> main_objects !! j = Some oj ->
  is_dynamic oi = true -> id oj <> id oi ->
  AABB_is_colliding (bounds oi) (bounds oj) = false.
Proof.
  intros Hi Hj Hd Hne.
  destruct i as [| i].
  - injection Hi as <-.
    do 6 (destruct j as [| j];
          [injection Hj as <-; first [reflexivity | now destruct Hne] |]).
    discriminate Hj.
  - do 5 (destruct i as [| i]; [injection Hi as <-; discriminate Hd |]).
    discriminate Hi.
Defined.

Lemma apart_bodies_unmoved_witness :
  exists obj',
    PhysicsEngine._collision_update main_objects !! 0%nat = Some obj'
    /\ x obj' == 50 /\ y obj' == 380.
Proof.
  destruct (apart_bodies_unmoved main_objects main_objects_apart 0%nat
              (fst (Player 50 380 40 60 0%nat)) eq_refl)
    as (obj' & Ho & Hx & Hy & _).
  exists obj'. split; [exact Ho |]. split; [exact Hx | exact Hy].
Defined.

(** ** Registration order *)

(** X11: the outcome of the collision pass depends on the registration order:
    with the two platforms of [two_platform_world] registered the other way
    round, the player ends the same [update] at a different place. *)
Theorem resolution_order_matters :
  exists (keys : Keys) (player A B p1 p2 : PhysicsObject),
    is_Player player /\ is_Platform A /\ is_Platform B
    /\ PhysicsEngine.update keys [player; A; B] = [p1; A; B]
    /\ PhysicsEngine.update keys [player; B; A] = [p2; B; A]
    /\ ~ x p1 == x p2.
Proof.
  exists no_keys, (fst (Player 0 0 10 10 0%nat)),
    (fst (Platform 8 (-10) 22 40 1%nat)),
    (fst (Platform (-20) (-10) 21 40 2%nat)),
    (mkPhysicsObject 0 1 3 10 10 [DYNAMIC; PLAYER] (KPlayer (0, -3))),
    (mkPhysicsObject 0 (-2) 3 10 10 [DYNAMIC; PLAYER] (KPlayer (0, -3))).
  split; [apply Player_is_Player |].
  split; [apply Platform_is_Platform |].
  split; [apply Platform_is_Platform |].
  split; [vm_compute; reflexivity |].
  split; [vm_compute; reflexivity |].
  intros H. discriminate H.
Qed.

(** ** Construction and registration *)

Lemma construct_spec (c : Ctor) (newid : nat) :
  id (fst (construct c newid)) = newid /\ snd (construct c newid) = S newid
  /\ instance_ok (fst (construct c newid)).
Proof.
  destruct c; cbn; (split; [reflexivity | split; [reflexivity |]]).
  - left. apply Player_is_Player.
  - right. apply Platform_is_Platform.
Qed.

Lemma register_all_spec (cs : list Ctor) (objects : list PhysicsObject)
    (newid : nat) :
  Forall instance_ok objects ->
  id <$> fst (register_all cs objects newid)
    = (id <$> objects) ++ seq newid (length cs)
  /\ snd (register_all cs objects newid) = (newid + length cs)%nat
  /\ Forall instance_ok (fst (register_all cs objects newid)).
Proof.
  revert objects newid.
  induction cs as [| c cs IH]; intros objects newid Hok.
  - cbn. rewrite app_nil_r. split; [reflexivity | split; [lia | exact Hok]].
  - cbn [register_all length seq].
    destruct (construct c newid) as [obj n'] eqn:Hc.
    destruct (construct_spec c newid) as (Hid & Hn & Hi).
    rewrite Hc in Hid, Hn, Hi. cbn [fst snd] in Hid, Hn, Hi. subst n'.
    destruct (IH (PhysicsEngine.register_obj objects obj) (S newid))
      as (E1 & E2 & E3).
    { unfold PhysicsEngine.register_obj. apply Forall_app. split; [exact Hok |].
      now apply Forall_singleton. }
    split; [| split; [rewrite E2; lia | exact E3]].
    rewrite E1. unfold PhysicsEngine.register_obj.
    rewrite fmap_app. cbn [fmap list_fmap]. rewrite Hid.
    now rewrite <- app_assoc.
Qed.

(** X12: objects constructed and registered one after the other get
    consecutive ids in registration order, starting at the counter; so their
    ids are pairwise distinct, and each carries the tags of its class. *)
Theorem registered_ids_consecutive (cs : list Ctor) (newid : nat) :
  let objects := fst (register_all cs PhysicsEngine.init newid) in
  id <$> objects = seq newid (length cs)
  /\ NoDup (id <$> objects)
  /\ Forall instance_ok objects.
Proof.
  cbv zeta.
  destruct (register_all_spec cs PhysicsEngine.init newid (Forall_nil_2 _))
    as (E1 & _ & E3).
  cbn in E1. split; [exact E1 | split; [| exact E3]].
  rewrite E1. apply NoDup_ListNoDup, List.seq_NoDup.
Qed.

(** ** Drawing *)

Lemma PhysicsEngine_draw_spec (display : list DrawRect)
    (objects : list PhysicsObject) :
  PhysicsEngine.draw display objects
  = display ++ ((fun obj => mkDrawRect (255, 0, 0)%nat
                              (x obj, y obj, width obj, height obj))
                <$> objects).
Proof.
  unfold PhysicsEngine.draw. revert display.
  induction objects as [| obj objects IH]; intros display; cbn [fold_left].
  - cbn. now rewrite app_nil_r.
  - rewrite IH. unfold draw_obj. cbn [fmap list_fmap].
    now rewrite <- app_assoc.
Qed.

(** X13: [PhysicsEngine.draw] keeps what is on the display and adds one red
    rectangle per object, in registration order: an object registered later
    is painted later, on top. *)
Theorem draw_in_registration_order (display : list DrawRect)
    (objects : list PhysicsObject) (obj : PhysicsObject) :
  PhysicsEngine.draw display (PhysicsEngine.register_obj objects obj)
  = PhysicsEngine.draw display objects
      ++ [mkDrawRect (255, 0, 0)%nat (x obj, y obj, width obj, height obj)]
  /\ length (PhysicsEngine.draw display objects)
     = (length display + length objects)%nat
  /\ forall i cmd, display !! i = Some cmd ->
       PhysicsEngine.draw display objects !! i = Some cmd.
Proof.
  split; [| split].
  - unfold PhysicsEngine.register_obj, PhysicsEngine.draw.
    now rewrite fold_left_app.
  - rewrite PhysicsEngine_draw_spec, length_app, length_fmap. reflexivity.
  - intros i cmd Hi. rewrite PhysicsEngine_draw_spec.
    now apply lookup_app_l_Some.
Qed.

(** ** The tick on integer velocities *)

Lemma jump_inject_Z (keys : Keys) (q : Q) (b : Z) :
  PlayerUpdate.jump keys (q, inject_Z b) =
    (q, inject_Z (if K_SPACE keys && (b <=? 0)%Z
                  then ((if (b <? 0)%Z then 0 else b) + 30)%Z else b)).
Proof.
  unfold PlayerUpdate.jump. cbn [fst snd].
  rewrite Qltb_inject_Z_tenth. change (0 : Q) with (inject_Z 0).
  rewrite Qltb_inject_Z. change 30 with (inject_Z 30).
  destruct (K_SPACE keys && (b <=? 0)%Z); [| reflexivity].
  destruct (b <? 0)%Z; cbn [fst snd]; now rewrite inject_Z_add.
Qed.

Lemma left_inject_Z (keys : Keys) (a : Z) (q : Q) :
  PlayerUpdate.left keys (inject_Z a, q) =
    (inject_Z (if K_LEFT keys && (-10 <? a)%Z then a - 3 else a), q).
Proof.
  unfold PlayerUpdate.left. cbn [fst snd].
  change (-10) with (inject_Z (-10)). change 3 with (inject_Z 3).
  rewrite Qltb_inject_Z.
  destruct (K_LEFT keys && (-10 <? a)%Z); [| reflexivity].
  now rewrite inject_Z_sub.
Qed.

Lemma right_inject_Z (keys : Keys) (a : Z) (q : Q) :
  PlayerUpdate.right keys (inject_Z a, q) =
    (inject_Z (if K_RIGHT keys && (a <? 10)%Z then a + 3 else a), q).
Proof.
  unfold PlayerUpdate.right. cbn [fst snd].
  change 10 with (inject_Z 10). change 3 with (inject_Z 3).
  rewrite Qltb_inject_Z.
  destruct (K_RIGHT keys && (a <? 10)%Z); [| reflexivity].
  now rewrite inject_Z_add.
Qed.

Lemma gravity_inject_Z (q : Q) (b : Z) :
  fst (PlayerUpdate.gravity (q, inject_Z b)) =
    (q, inject_Z (if (-15 <? b)%Z then b - 3 else b)).
Proof.
  unfold PlayerUpdate.gravity. cbn [fst snd].
  change (-15) with (inject_Z (-15)). change (3 * 1) with (inject_Z 3).
  rewrite Qltb_inject_Z.
  destruct (-15 <? b)%Z; cbn [fst]; [| reflexivity].
  now rewrite inject_Z_sub.
Qed.

(** [Player.update] on a velocity with integer components, computed on the
    integers. *)
Lemma step_velocity_inject_Z (keys : Keys) (a b : Z) :
  PlayerUpdate.step_velocity keys (inject_Z a, inject_Z b) =
    (inject_Z (tickZ_x keys a), inject_Z (tickZ_y keys b)).
Proof.
  unfold PlayerUpdate.step_velocity, tickZ_x, tickZ_y.
  now rewrite jump_inject_Z, left_inject_Z, right_inject_Z, gravity_inject_Z.
Qed.

Lemma run_velocity_snoc (ks : list Keys) (keys : Keys) (v : Q * Q) :
  run_velocity (ks ++ [keys]) v
  = PlayerUpdate.step_velocity keys (run_velocity ks v).
Proof. unfold run_velocity. now rewrite fold_left_app. Qed.

Lemma repeat_snoc {A : Type} (a : A) (n : nat) :
  repeat a (S n) = repeat a n ++ [a].
Proof. cbn [repeat]. apply repeat_cons. Qed.

(** X14: free fall.  From rest with no key held, [vy] drops by 3 a tick for five
    ticks and then stays at [-15]; [vx] stays 0. *)
Theorem free_fall_velocity (n : nat) :
  run_velocity (repeat no_keys n) (0, 0)
  = (0, inject_Z (- 3 * Z.min (Z.of_nat n) 5)).
Proof.
  induction n as [| n IH]; [reflexivity |].
  rewrite repeat_snoc, run_velocity_snoc, IH.
  change (0 : Q) with (inject_Z 0). rewrite step_velocity_inject_Z.
  unfold tickZ_x, tickZ_y. cbn [no_keys K_SPACE K_LEFT K_RIGHT andb].
  f_equal. f_equal.
  destruct (Z.ltb_spec (-15) (-3 * Z.min (Z.of_nat n) 5)); lia.
Qed.

(** X15: holding one direction from rest, [vx] changes by 3 a tick for four
    ticks and then stays at 12 (right) or [-12] (left): the guard at 10 lets
    the speed pass 10 once. *)
Theorem top_speed (n : nat) :
  fst (run_velocity (repeat (mkKeys false false true) n) (0, 0))
    = inject_Z (3 * Z.min (Z.of_nat n) 4)
  /\ fst (run_velocity (repeat (mkKeys false true false) n) (0, 0))
    = inject_Z (- 3 * Z.min (Z.of_nat n) 4).
Proof.
  split.
  - assert (H : run_velocity (repeat (mkKeys false false true) n) (0, 0)
                = (inject_Z (3 * Z.min (Z.of_nat n) 4),
                   inject_Z (- 3 * Z.min (Z.of_nat n) 5))).
    { induction n as [| n IH]; [reflexivity |].
      rewrite repeat_snoc, run_velocity_snoc, IH, step_velocity_inject_Z.
      unfold tickZ_x, tickZ_y. cbn [K_SPACE K_LEFT K_RIGHT andb].
      f_equal; f_equal.
      - destruct (Z.ltb_spec (3 * Z.min (Z.of_nat n) 4) 10); lia.
      - destruct (Z.ltb_spec (-15) (-3 * Z.min (Z.of_nat n) 5)); lia. }
    now rewrite H.
  - assert (H : run_velocity (repeat (mkKeys false true false) n) (0, 0)
                = (inject_Z (- 3 * Z.min (Z.of_nat n) 4),
                   inject_Z (- 3 * Z.min (Z.of_nat n) 5))).
    { induction n as [| n IH]; [reflexivity |].
      rewrite repeat_snoc, run_velocity_snoc, IH, step_velocity_inject_Z.
      unfold tickZ_x, tickZ_y. cbn [K_SPACE K_LEFT K_RIGHT andb].
      f_equal; f_equal.
      - destruct (Z.ltb_spec (-10) (-3 * Z.min (Z.of_nat n) 4));
          destruct (Z.ltb_spec (-3 * Z.min (Z.of_nat n) 4) 10); lia.
      - destruct (Z.ltb_spec (-15) (-3 * Z.min (Z.of_nat n) 5)); lia. }
    now rewrite H.
Qed.

Lemma jump_fst (keys : Keys) (v : Q * Q) :
  fst (PlayerUpdate.jump keys v) = fst v.
Proof.
  unfold PlayerUpdate.jump. destruct (_ && _); [| reflexivity].
  now destruct (Qltb _ _).
Qed.

Lemma gravity_fst (v : Q * Q) : fst (fst (PlayerUpdate.gravity v)) = fst v.
Proof. unfold PlayerUpdate.gravity. now destruct (Qltb _ _). Qed.

Lemma step_velocity_coast (keys : Keys) (v : Q * Q) :
  K_LEFT keys = false -> K_RIGHT keys = false ->
  fst (PlayerUpdate.step_velocity keys v) = fst v.
Proof.
  intros Hl Hr. unfold PlayerUpdate.step_velocity.
  rewrite gravity_fst. unfold PlayerUpdate.right, PlayerUpdate.left.
  rewrite Hl, Hr. cbn [andb]. apply jump_fst.
Qed.

(** X16: nothing slows the player down.  Over any ticks in which neither left
    nor right is held, [vx] keeps its value. *)
Theorem no_friction (ks : list Keys) (v : Q * Q) :
  Forall (fun keys => K_LEFT keys = false /\ K_RIGHT keys = false) ks ->
  fst (run_velocity ks v) = fst v.
Proof.
  revert v. induction ks as [| keys ks IH]; intros v Hks; [reflexivity |].
  apply Forall_cons_1 in Hks. destruct Hks as [[Hl Hr] Hks].
  cbn [run_velocity fold_left]. fold (run_velocity ks).
  rewrite (IH _ Hks). now apply step_velocity_coast.
Qed.

Lemma no_friction_witness :
  Forall (fun keys => K_LEFT keys = false /\ K_RIGHT keys = false)
    [no_keys; mkKeys true false false]
  /\ fst (run_velocity [no_keys; mkKeys true false false] (9, 0)) = 9.
Proof.
  assert (H : Forall (fun keys => K_LEFT keys = false /\ K_RIGHT keys = false)
                [no_keys; mkKeys true false false]).
  { repeat apply Forall_cons_2; [| | apply Forall_nil_2]; now split. }
  split; [exact H |].
  exact (no_friction [no_keys; mkKeys true false false] (9, 0) H).
Defined.

(** X17: the jump key does nothing while the player rises: with [vy >= 0.1] the
    tick is the same whether or not the key is down. *)
Theorem jump_ignored_while_rising (keys : Keys) (v : Q * Q) :
  0.1 <= snd v ->
  PlayerUpdate.step_velocity keys v
  = PlayerUpdate.step_velocity (mkKeys false (K_LEFT keys) (K_RIGHT keys)) v.
Proof.
  intros Hv. unfold PlayerUpdate.step_velocity.
  assert (Hj : PlayerUpdate.jump keys v = v).
  { unfold PlayerUpdate.jump. apply Qltb_ge in Hv. rewrite Hv.
    now rewrite andb_false_r. }
  rewrite Hj. reflexivity.
Qed.

Lemma jump_ignored_while_rising_witness :
  0.1 <= snd (0, 27)
  /\ PlayerUpdate.step_velocity (mkKeys true false false) (0, 27)
     = PlayerUpdate.step_velocity (mkKeys false false false) (0, 27).
Proof.
  assert (H : 0.1 <= snd (0, 27)) by discriminate.
  split; [exact H |].
  exact (jump_ignored_while_rising (mkKeys true false false) (0, 27) H).
Defined.

(** X18: the jump also fires in the middle of a fall: with the key down and
    [vy <= 0], whatever the downward speed, it is discarded and [vy] is 27
    when [update] returns. *)
Theorem jump_resets_fall (keys : Keys) (v : Q * Q) :
  K_SPACE keys = true -> snd v <= 0 ->
  snd (PlayerUpdate.step_velocity keys v) == 27.
Proof.
  intros Hk Hv.
  assert (Hj : snd (PlayerUpdate.jump keys v) == 30).
  { unfold PlayerUpdate.jump. rewrite Hk.
    assert (H1 : Qltb (snd v) 0.1 = true).
    { apply Qltb_lt. apply (Qle_lt_trans _ _ _ Hv). reflexivity. }
    rewrite H1. cbn [andb].
    destruct (Qltb (snd v) 0) eqn:E; cbn [fst snd]; qbool; lra. }
  unfold PlayerUpdate.step_velocity, PlayerUpdate.gravity.
  rewrite right_snd, left_snd.
  assert (H3 : Qltb (-15) (snd (PlayerUpdate.jump keys v)) = true)
    by (qbool; rewrite Hj; reflexivity).
  rewrite H3. cbn [fst snd]. rewrite Hj. reflexivity.
Qed.

Lemma jump_resets_fall_witness :
  K_SPACE (mkKeys true false false) = true /\ snd (0, -15) <= 0
  /\ snd (PlayerUpdate.step_velocity (mkKeys true false false) (0, -15)) == 27.
Proof.
  assert (H : snd (0, -15) <= 0) by discriminate.
  split; [reflexivity |]. split; [exact H |].
  exact (jump_resets_fall (mkKeys true false false) (0, -15) eq_refl H).
Defined.

(** X19: a player constructed at a position with integer coordinates of
    magnitude at most [2^48] never moves, within its first [2^32] ticks, more
    than 12 sideways, 27 up or 15 down in one tick of its own. *)
Theorem Player_step_bounded (x0 y0 w h : Q) (newid : nat) (ks : list Keys)
    (keys : Keys) :
  small_int x0 -> small_int y0 -> (Z.of_nat (length ks) <= 2 ^ 32)%Z ->
  let obj := run_obj ks (fst (Player x0 y0 w h newid)) in
  let obj' := update_obj keys obj in
  -12 <= x obj' - x obj <= 12 /\ -27 <= y obj' - y obj <= 15.
Proof.
  intros _ _ _. cbv zeta.
  pose proof (run_obj_Player ks (fst (Player x0 y0 w h newid)) (0, 0) eq_refl)
    as Hv.
  unfold velocity in Hv.
  destruct (kind (run_obj ks (fst (Player x0 y0 w h newid)))) as [| v] eqn:Hk;
    [discriminate |].
  injection Hv as Hv.
  assert (H0 : velocity_ok (0, 0)).
  { split; exists 0%Z; (split; [reflexivity | split; [reflexivity | lia]]). }
  pose proof (step_velocity_ok keys _ (run_velocity_ok ks _ H0)) as [Hx Hy].
  apply grid_bounds in Hx, Hy. rewrite <- Hv in Hx, Hy.
  unfold update_obj. rewrite Hk. unfold Player_update. cbn [x y].
  change (inject_Z (-12)) with (-12) in Hx. change (inject_Z 12) with 12 in Hx.
  change (inject_Z (-15)) with (-15) in Hy. change (inject_Z 27) with 27 in Hy.
  split; lra.
Qed.

Lemma Player_step_bounded_witness :
  small_int 50 /\ small_int 380
  /\ (Z.of_nat (length [no_keys; mkKeys true false true]) <= 2 ^ 32)%Z
  /\ -12 <= x (run_obj [no_keys; mkKeys true false true; mkKeys false false true]
                 (fst (Player 50 380 40 60 0%nat)))
            - x (run_obj [no_keys; mkKeys true false true]
                   (fst (Player 50 380 40 60 0%nat))) <= 12.
Proof.
  assert (S1 : small_int 50) by small.
  assert (S2 : small_int 380) by small.
  assert (S3 : (Z.of_nat (length [no_keys; mkKeys true false true]) <= 2 ^ 32)%Z)
    by (vm_compute; discriminate).
  split; [exact S1 |]. split; [exact S2 |]. split; [exact S3 |].
  exact (proj1 (Player_step_bounded 50 380 40 60 0%nat
                  [no_keys; mkKeys true false true] (mkKeys false false true)
                  S1 S2 S3)).
Defined.

(** ** The demonstration world *)

Lemma run_world_snoc (ks : list Keys) (keys : Keys)
    (objects : list PhysicsObject) :
  run_world (ks ++ [keys]) objects
  = PhysicsEngine.update keys (run_world ks objects).
Proof. unfold run_world. now rewrite fold_left_app. Qed.

(** X20: in the world of [__main__], with no key pressed, the player falls,
    lands on the bottom platform within six frames and stays there: from the
    sixth [update] on the world no longer changes, the player stands at
    [(50, 430)] with velocity [(0, -15)] and the platforms are where they
    were registered. *)
Theorem main_player_lands (n : nat) :
  run_world (repeat no_keys (6 + n)) main_objects
  = mkPhysicsObject 0 50 430 40 60 [DYNAMIC; PLAYER] (KPlayer (0, -15))
      :: tail main_objects.
Proof.
  induction n as [| n IH].
  - vm_compute. reflexivity.
  - replace (6 + S n)%nat with (S (6 + n)) by lia.
    rewrite repeat_snoc, run_world_snoc, IH.
    vm_compute. reflexivity.
Qed.

(** ** One collision in a world of platforms *)

Lemma Bounds_eq_sym (b b' : Bounds) : Bounds_eq b b' -> Bounds_eq b' b.
Proof. intros [[H1 H2] [H3 H4]]. repeat split; now symmetry. Qed.

Lemma Bounds_eq_trans (a b c : Bounds) :
  Bounds_eq a b -> Bounds_eq b c -> Bounds_eq a c.
Proof.
  intros [[H1 H2] [H3 H4]] [[K1 K2] [K3 K4]].
  repeat split; etransitivity; eassumption.
Qed.

Lemma _AABB_vector_1d_Qeq (a0 a1 b0 b1 a0' a1' b0' b1' : Q) :
  a0 == a0' -> a1 == a1' -> b0 == b0' -> b1 == b1' ->
  _AABB_vector_1d (a0, a1) (b0, b1) == _AABB_vector_1d (a0', a1') (b0', b1').
Proof.
  intros H1 H2 H3 H4. unfold _AABB_vector_1d. cbn [fst snd].
  rewrite H1, H2, H3, H4. destruct (Qltb _ _); lra.
Qed.

(** The vector does not tell [==] bounds apart. *)
Lemma AABB_vector_compact_Bounds_eq (b1 b1' b2 b2' : Bounds) :
  Bounds_eq b1 b1' -> Bounds_eq b2 b2' ->
  fst (AABB_vector_compact b1 b2) == fst (AABB_vector_compact b1' b2')
  /\ snd (AABB_vector_compact b1 b2) == snd (AABB_vector_compact b1' b2').
Proof.
  intros E1 E2.
  pose proof (AABB_is_colliding_Bounds_eq _ _ _ _ E1 E2) as Hc.
  destruct (AABB_is_colliding b1' b2') eqn:Hc'.
  - rewrite (AABB_vector_compact_colliding _ _ Hc),
      (AABB_vector_compact_colliding _ _ Hc'). cbv zeta.
    destruct b1 as [[a0 a1] [c0 c1]], b2 as [[b0 b1] [d0 d1]],
      b1' as [[a0' a1'] [c0' c1']], b2' as [[b0' b1'] [d0' d1']].
    destruct E1 as [[H1 H2] [H3 H4]], E2 as [[K1 K2] [K3 K4]].
    cbn [fst snd] in *.
    pose proof (_AABB_vector_1d_Qeq _ _ _ _ _ _ _ _ H1 H2 K1 K2) as Ex.
    pose proof (_AABB_vector_1d_Qeq _ _ _ _ _ _ _ _ H3 H4 K3 K4) as Ey.
    assert (Ec : Qltb (Qabs (_AABB_vector_1d (a0, a1) (b0, b1)))
                   (Qabs (_AABB_vector_1d (c0, c1) (d0, d1)))
                 = Qltb (Qabs (_AABB_vector_1d (a0', a1') (b0', b1')))
                     (Qabs (_AABB_vector_1d (c0', c1') (d0', d1'))))
      by (now rewrite Ex, Ey).
    rewrite Ec. clear Ec.
    match goal with |- context [if ?c then _ else _] => destruct c end;
      cbn [fst snd]; split; try reflexivity; assumption.
  - rewrite (AABB_vector_compact_apart _ _ Hc),
      (AABB_vector_compact_apart _ _ Hc').
    split; reflexivity.
Qed.

Lemma same_place_sym (a b : PhysicsObject) : same_place a b -> same_place b a.
Proof.
  intros [(H1 & H2 & H3 & H4 & H5) [Hx Hy]].
  split; [unfold same_shape; intuition | split; now symmetry].
Qed.

Lemma move_same_place (d d' : PhysicsObject) (v v' : Q * Q) :
  same_place d d' -> fst v == fst v' -> snd v == snd v' ->
  same_place (move d v) (move d' v').
Proof.
  intros [(H1 & H2 & H3 & H4 & H5) [Hx Hy]] Ex Ey.
  split; [unfold same_shape, move; cbn; intuition |].
  unfold move. cbn [x y]. split; [now rewrite Hx, Ex | now rewrite Hy, Ey].
Qed.

Lemma resolve_inert (D : PhysicsObject) (objects : list PhysicsObject)
    (d : PhysicsObject) :
  Forall (inert D) objects -> same_place D d ->
  same_place D (PhysicsEngine.resolve objects d).
Proof.
  intros HF. revert d. unfold PhysicsEngine.resolve.
  induction HF as [| obj objects Hobj _ IH]; intros d Hd; cbn [fold_left];
    [exact Hd |].
  apply IH. unfold PhysicsEngine.resolve_step.
  assert (Eid : id d = id D) by (destruct Hd as [(E & _) _]; now symmetry).
  destruct (Nat.eqb_spec (id obj) (id d)) as [E | Hne]; [exact Hd |].
  destruct Hobj as [Hobj | Hobj]; [congruence |].
  assert (Hc : AABB_is_colliding (bounds d) (bounds obj) = false).
  { rewrite <- Hobj. apply AABB_is_colliding_Bounds_eq;
      [apply Bounds_eq_sym, same_place_bounds, Hd | apply Bounds_eq_refl]. }
  rewrite (AABB_vector_compact_apart _ _ Hc).
  eapply same_place_trans; [exact Hd | apply move_zero_same_place].
Qed.

(** The inner loop when one object, [obstacle], is the only one to push the
    body. *)
Lemma resolve_single (D obstacle : PhysicsObject)
    (before after : list PhysicsObject) :
  id obstacle <> id D ->
  Forall (inert D) before ->
  Forall (inert (move D (AABB_vector_compact (bounds D) (bounds obstacle))))
    after ->
  same_place (move D (AABB_vector_compact (bounds D) (bounds obstacle)))
    (PhysicsEngine.resolve (before ++ obstacle :: after) D).
Proof.
  intros Hid Hb Ha.
  pose proof (resolve_inert D before D Hb (same_place_refl D)) as H1.
  unfold PhysicsEngine.resolve in *. rewrite fold_left_app. cbn [fold_left].
  apply (resolve_inert _ after _ Ha).
  set (d1 := fold_left PhysicsEngine.resolve_step before D) in *.
  unfold PhysicsEngine.resolve_step.
  assert (Eid : id d1 = id D) by (destruct H1 as [(E & _) _]; now symmetry).
  destruct (Nat.eqb_spec (id obstacle) (id d1)) as [E | _]; [congruence |].
  destruct (AABB_vector_compact_Bounds_eq (bounds D) (bounds d1)
              (bounds obstacle) (bounds obstacle)
              (same_place_bounds _ _ H1) (Bounds_eq_refl _)) as [Ex Ey].
  now apply move_same_place.
Qed.

Lemma single_position (positions : list nat) (i : nat) :
  NoDup positions -> (forall p, In p positions <-> p = i) -> positions = [i].
Proof.
  intros Hnd Hin. destruct positions as [| p positions].
  - exfalso. now apply (Hin i).
  - assert (p = i) by (apply Hin; now left). subst p.
    destruct positions as [| q positions]; [reflexivity |].
    assert (q = i) by (apply Hin; right; now left). subst q.
    apply NoDup_cons in Hnd. destruct Hnd as [Hni _].
    exfalso. apply Hni. now left.
Qed.

Section SingleCollision.

Variable keys : Keys.
Variable objects : list PhysicsObject.
Variables i j : nat.
Variables dyn_obj platform : PhysicsObject.

Hypothesis Hi : objects !! i = Some dyn_obj.
Hypothesis Hj : objects !! j = Some platform.
Hypothesis Hij : i <> j.
Hypothesis Hdyn : is_Player dyn_obj.

(** Every other object is a platform, and a different object. *)
Hypothesis Hothers : forall k obj, objects !! k = Some obj -> k <> i ->
  is_Platform obj /\ id obj <> id dyn_obj.

(** No third object is in the way, before the push or after it. *)
Hypothesis Hclear : forall k obj, objects !! k = Some obj -> k <> i -> k <> j ->
  AABB_is_colliding (bounds (update_obj keys dyn_obj)) (bounds obj) = false
  /\ AABB_is_colliding
       (translate (bounds (update_obj keys dyn_obj))
          (AABB_vector_compact (bounds (update_obj keys dyn_obj))
             (bounds platform)))
       (bounds obj) = false.

Lemma ticked_lookup_self :
  (update_obj keys <$> objects) !! i = Some (update_obj keys dyn_obj).
Proof. now rewrite list_lookup_fmap, Hi. Qed.

Lemma ticked_lookup_other (k : nat) (obj : PhysicsObject) :
  k <> i -> (update_obj keys <$> objects) !! k = Some obj ->
  objects !! k = Some obj.
Proof.
  intros Hk. rewrite list_lookup_fmap.
  destruct (objects !! k) as [o |] eqn:Ho; [| discriminate].
  cbn. intros H. injection H as <-.
  destruct (Hothers k o Ho Hk) as [Hp _].
  now rewrite (update_obj_Platform keys o Hp).
Qed.

Lemma ticked_positions :
  PhysicsEngine.dynamic_positions (update_obj keys <$> objects) = [i].
Proof.
  apply single_position.
  - apply dynamic_positions_NoDup.
  - intros p. rewrite dynamic_positions_spec. split.
    + intros (obj & Ho & Hd). destruct (decide (p = i)) as [E | Hne]; [exact E |].
      apply ticked_lookup_other in Ho; [| exact Hne].
      destruct (Hothers p obj Ho Hne) as [Hp _].
      apply is_Platform_static in Hp. congruence.
    + intros ->. exists (update_obj keys dyn_obj).
      split; [apply ticked_lookup_self |].
      rewrite update_obj_dynamic. now apply is_Player_dynamic.
Qed.

(** The player when [update] returns is the ticked player moved once, by its
    vector against [platform]. *)
Lemma update_single_collision :
  exists dyn_obj',
    PhysicsEngine.update keys objects !! i = Some dyn_obj'
    /\ same_place (resolved keys dyn_obj platform) dyn_obj'.
Proof.
  unfold PhysicsEngine.update, PhysicsEngine._collision_update.
  rewrite ticked_positions. cbn [fold_left].
  unfold PhysicsEngine.resolve_at. rewrite ticked_lookup_self.
  pose proof ticked_lookup_self as Hti.
  rewrite list_lookup_insert_eq by (now apply lookup_lt_Some in Hti).
  eexists. split; [reflexivity |].
  assert (Htj : (update_obj keys <$> objects) !! j = Some platform).
  { rewrite list_lookup_fmap, Hj. cbn. f_equal.
    apply update_obj_Platform. apply (Hothers j platform Hj). congruence. }
  rewrite <- (take_drop_middle _ _ _ Htj).
  unfold resolved. cbv zeta.
  apply resolve_single.
  - rewrite update_obj_id. apply (Hothers j platform Hj). congruence.
  - apply Forall_forall. intros obj Hobj.
    apply elem_of_take in Hobj. destruct Hobj as (k & Hk & Hlt).
    destruct (decide (k = i)) as [-> | Hne].
    + rewrite Hti in Hk. injection Hk as <-. now left.
    + apply ticked_lookup_other in Hk; [| exact Hne].
      right. apply (Hclear k obj Hk Hne). lia.
  - apply Forall_forall. intros obj Hobj.
    apply list_elem_of_lookup in Hobj. destruct Hobj as (k & Hk).
    rewrite lookup_drop in Hk.
    destruct (decide (S j + k = i)%nat) as [E | Hne].
    + rewrite E, Hti in Hk. injection Hk as <-. now left.
    + apply ticked_lookup_other in Hk; [| exact Hne].
      right.
      rewrite <- (proj2 (Hclear _ obj Hk Hne ltac:(lia))).
      apply AABB_is_colliding_Bounds_eq; [apply bounds_move | apply Bounds_eq_refl].
Qed.

End SingleCollision.

(** ** The separation vector in a world update *)

(** C1 (amended): for colliding bounds [b1], [b2] with integer coordinates of
    magnitude at most [2^48], the bounds [b1] moved by
    [AABB_vector_compact b1 b2] no longer overlap [b2] strictly, but they
    touch it, so that the inclusive [AABB_is_colliding] still returns true.
    In particular, in a world of such objects whose only dynamic body is a
    player, if the player after its own tick collides with one platform and
    no other object is in its way, before the push or after it, then after
    [PhysicsEngine.update] the player's bounds touch that platform's bounds
    without overlapping them strictly. *)
Theorem separation_leaves_touching (b1 b2 : Bounds) :
  small_bounds b1 -> small_bounds b2 ->
  AABB_is_colliding b1 b2 = true ->
  (overlap_strict (translate b1 (AABB_vector_compact b1 b2)) b2 = false
   /\ AABB_is_colliding (translate b1 (AABB_vector_compact b1 b2)) b2 = true)
  /\ forall (keys : Keys) (objects : list PhysicsObject) (i j : nat)
       (dyn_obj platform : PhysicsObject),
       objects !! i = Some dyn_obj -> objects !! j = Some platform -> i <> j ->
       is_Player dyn_obj -> Forall small_object objects ->
       (forall k obj, objects !! k = Some obj -> k <> i ->
          is_Platform obj /\ id obj <> id dyn_obj) ->
       bounds (update_obj keys dyn_obj) = b1 -> bounds platform = b2 ->
       (forall k obj, objects !! k = Some obj -> k <> i -> k <> j ->
          AABB_is_colliding b1 (bounds obj) = false
          /\ AABB_is_colliding (translate b1 (AABB_vector_compact b1 b2))
               (bounds obj) = false) ->
       exists dyn_obj',
         PhysicsEngine.update keys objects !! i = Some dyn_obj'
         /\ overlap_strict (bounds dyn_obj') (bounds platform) = false
         /\ AABB_is_colliding (bounds dyn_obj') (bounds platform) = true.
Proof.
  intros _ _ Hc. split.
  - apply (pushed_bounds_touch _ _ _ Hc), Bounds_eq_refl.
  - intros keys objects i j dyn_obj platform Hi Hj Hij Hdyn _ Hothers Hb1 Hb2
      Hclear.
    subst b1 b2.
    destruct (update_single_collision keys objects i j dyn_obj platform
                Hi Hj Hij Hdyn Hothers Hclear) as (dyn_obj' & Hl & Hs).
    exists dyn_obj'. split; [exact Hl |].
    apply (pushed_bounds_touch _ _ _ Hc).
    eapply Bounds_eq_trans;
      [apply Bounds_eq_sym, same_place_bounds, Hs | apply bounds_move].
Qed.

Lemma far_platform_world_others (k : nat) (obj : PhysicsObject) :
  far_platform_world !! k = Some obj -> k <> 0%nat ->
  is_Platform obj /\ id obj <> 0%nat.
Proof.
  intros Hk Hne. destruct k as [| [| [| k]]]; [now destruct Hne | | |].
  - injection Hk as <-. split; [apply Platform_is_Platform | discriminate].
  - injection Hk as <-. split; [apply Platform_is_Platform | discriminate].
  - discriminate Hk.
Defined.

Lemma far_platform_world_clear (k : nat) (obj : PhysicsObject) :
  far_platform_world !! k = Some obj -> k <> 0%nat -> k <> 1%nat ->
  AABB_is_colliding ((0, 10), (3, 13)) (bounds obj) = false
  /\ AABB_is_colliding
       (translate ((0, 10), (3, 13))
          (AABB_vector_compact ((0, 10), (3, 13)) ((5, 15), (0, 20))))
       (bounds obj) = false.
Proof.
  intros Hk H0 H1. destruct k as [| [| [| k]]];
    [now destruct H0 | now destruct H1 | | discriminate Hk].
  injection Hk as <-. split; reflexivity.
Defined.

Lemma far_platform_world_small : Forall small_object far_platform_world.
Proof.
  repeat apply Forall_cons_2; [| | | apply Forall_nil_2]; small_obj.
Defined.

Lemma separation_leaves_touching_witness :
  small_bounds ((0, 10), (3, 13)) /\ small_bounds ((5, 15), (0, 20))
  /\ AABB_is_colliding ((0, 10), (3, 13)) ((5, 15), (0, 20)) = true
  /\ overlap_strict
       (translate ((0, 10), (3, 13))
          (AABB_vector_compact ((0, 10), (3, 13)) ((5, 15), (0, 20))))
       ((5, 15), (0, 20)) = false
  /\ exists dyn_obj',
       PhysicsEngine.update no_keys far_platform_world !! 0%nat = Some dyn_obj'
       /\ overlap_strict (bounds dyn_obj')
            (bounds (fst (Platform 5 0 10 20 1%nat))) = false
       /\ AABB_is_colliding (bounds dyn_obj')
            (bounds (fst (Platform 5 0 10 20 1%nat))) = true.
Proof.
  assert (S1 : small_bounds ((0, 10), (3, 13))) by small_obj.
  assert (S2 : small_bounds ((5, 15), (0, 20))) by small_obj.
  destruct (separation_leaves_touching ((0, 10), (3, 13)) ((5, 15), (0, 20))
              S1 S2 eq_refl) as [[Hs _] Hw].
  split; [exact S1 |]. split; [exact S2 |].
  split; [reflexivity |]. split; [exact Hs |].
  exact (Hw no_keys far_platform_world 0%nat 1%nat
           (fst (Player 0 0 10 10 0%nat)) (fst (Platform 5 0 10 20 1%nat))
           eq_refl eq_refl (fun H : 0%nat = 1%nat => O_S _ H)
           (Player_is_Player _ _ _ _ _) far_platform_world_small
           far_platform_world_others eq_refl eq_refl
           far_platform_world_clear).
Defined.

(** A decimal float literal stands for the nearest binary64 value, as in
    Python. *)
Set Warnings "-inexact-float".

(** C1 as stated fails, in four ways.

    The test is inclusive: [((0,10),(0,10))] and [((5,15),(0,10))] have
    positive extents and collide, the vector is [(-5, 0)], and the moved
    bounds [((-5,5),(0,10))] share the edge [x = 5] with the second
    rectangle, which [AABB_is_colliding] counts as colliding; the same
    happens to the player of [one_platform_world] after one [update].

    A third body can undo the push: the player of [pushed_back_world]
    overlaps the platform on its right and no other, before and after its own
    tick; it is pushed left out of it, against the platform on its left, and
    that one pushes it back: after [update] it is strictly inside the one
    platform it overlapped.

    Another dynamic body can be moved into the way: the second player of
    [crowded_world] overlaps the platform on its right and no other object,
    before and after its own tick, and the first player is clear of where the
    push takes it; but the first player is resolved first and pushed to the
    right, and when the second has been pushed out of the platform it meets
    the first there and is pushed back in.

    Floats round: on binary64 the body [(0.0, 0, 1.1, 1)] against the bounds
    of [(0.3, 0, 0.9, 1)] gets the vector [0.3 - 1.1], and moved by it its
    right edge is [0.30000000000000004]: it still strictly overlaps. *)
Lemma separation_still_colliding :
  (positive_extents ((0, 10), (0, 10)) /\ positive_extents ((5, 15), (0, 10))
   /\ AABB_is_colliding ((0, 10), (0, 10)) ((5, 15), (0, 10)) = true
   /\ AABB_vector_compact ((0, 10), (0, 10)) ((5, 15), (0, 10)) = (-5, 0)
   /\ AABB_is_colliding
        (translate ((0, 10), (0, 10))
           (AABB_vector_compact ((0, 10), (0, 10)) ((5, 15), (0, 10))))
        ((5, 15), (0, 10)) = true
   /\ match one_platform_world,
            PhysicsEngine.update no_keys one_platform_world with
      | [dyn_obj; platform], [dyn_obj'; platform'] =>
          is_dynamic dyn_obj = true /\ is_dynamic platform = false
          /\ AABB_is_colliding (bounds dyn_obj) (bounds platform) = true
          /\ AABB_is_colliding (bounds dyn_obj') (bounds platform') = true
      | _, _ => False
      end)
  /\ match pushed_back_world,
           PhysicsEngine.update no_keys pushed_back_world with
     | [dyn_obj; A; B], [dyn_obj'; A'; B'] =>
         AABB_is_colliding (bounds dyn_obj) (bounds A) = true
         /\ AABB_is_colliding (bounds dyn_obj) (bounds B) = false
         /\ AABB_is_colliding (bounds (update_obj no_keys dyn_obj)) (bounds A)
            = true
         /\ AABB_is_colliding (bounds (update_obj no_keys dyn_obj)) (bounds B)
            = false
         /\ A' = A /\ B' = B
         /\ overlap_strict (bounds dyn_obj') (bounds A') = true
     | _, _ => False
     end
  /\ match crowded_world, PhysicsEngine.update no_keys crowded_world with
     | [platform; D; P; X], [platform'; D'; P'; X'] =>
         let ticked := bounds (update_obj no_keys P) in
         let pushed := translate ticked (AABB_vector_compact ticked (bounds platform)) in
         is_dynamic P = true /\ is_dynamic D = true
         /\ AABB_is_colliding ticked (bounds platform) = true
         /\ AABB_is_colliding ticked (bounds X) = false
         /\ AABB_is_colliding ticked (bounds (update_obj no_keys D)) = false
         /\ AABB_is_colliding pushed (bounds X) = false
         /\ AABB_is_colliding pushed (bounds (update_obj no_keys D)) = false
         /\ platform' = platform /\ X' = X
         /\ overlap_strict (bounds P') (bounds platform') = true
     | _, _ => False
     end
  /\ (Binary64.AABB_is_colliding
        (Binary64.bounds 0.0 0 1.1 1) (Binary64.bounds 0.3 0 0.9 1) = true
      /\ Binary64.overlap_strict
           (Binary64.pushed 0.0 0 1.1 1 (Binary64.bounds 0.3 0 0.9 1))
           (Binary64.bounds 0.3 0 0.9 1) = true)%float.
Proof.
  split; [| split; [| split]].
  - split; [split; reflexivity |]. split; [split; reflexivity |].
    repeat split; reflexivity.
  - vm_compute. repeat split; reflexivity.
  - vm_compute. repeat split; reflexivity.
  - split; vm_compute; reflexivity.
Qed.

(** ** Standing on a platform *)

(** A player standing on a platform, ticked with no key held and pushed once
    by its vector against the platform, is back where it stood. *)
Lemma standing_resolved (player platform : PhysicsObject) (v : Q * Q) :
  kind player = KPlayer v ->
  fst v == 0 -> -15 <= snd v <= 0 ->
  y player + height player == y platform ->
  x platform + 18 <= x player + width player ->
  x player + 18 <= x platform + width platform ->
  36 <= height player + height platform ->
  x (resolved no_keys player platform) == x player
  /\ y (resolved no_keys player platform) == y player
  /\ width (resolved no_keys player platform) = width player
  /\ height (resolved no_keys player platform) = height player
  /\ exists v', velocity (resolved no_keys player platform) = Some v'
                /\ fst v' == 0 /\ -18 < snd v' <= -3.
Proof.
  intros Hk Hvx [Hvy1 Hvy2] Hy Hx1 Hx2 Hh.
  assert (Hs : PlayerUpdate.step_velocity no_keys v
               = fst (PlayerUpdate.gravity v)) by reflexivity.
  assert (Hv' : fst (PlayerUpdate.step_velocity no_keys v) == 0
                /\ -18 < snd (PlayerUpdate.step_velocity no_keys v) <= -3).
  { rewrite Hs. unfold PlayerUpdate.gravity.
    destruct (Qltb (-15) (snd v)) eqn:E; cbn [fst snd]; qbool;
      (split; [exact Hvx | split; lra]). }
  destruct Hv' as (Hx' & Hy1' & Hy2').
  unfold resolved. cbv zeta. unfold update_obj. rewrite Hk.
  unfold Player_update. cbv zeta.
  generalize dependent (PlayerUpdate.step_velocity no_keys v).
  intros v' _ Hx' Hy1' Hy2'.
  set (ticked := mkPhysicsObject _ _ _ _ _ _ _).
  assert (Hc : AABB_is_colliding (bounds ticked) (bounds platform) = true).
  { unfold AABB_is_colliding, _AABB_is_colliding_1d, bounds, ticked.
    cbn [fst snd x y width height]. qbool; lra. }
  rewrite (AABB_vector_compact_colliding _ _ Hc). cbv zeta.
  unfold _AABB_vector_1d, bounds, ticked.
  cbn [fst snd x y width height].
  repeat match goal with
    | |- context [if ?c then _ else _] =>
        lazymatch c with
        | context [if _ then _ else _] => fail
        | _ => destruct c eqn:?
        end
    end;
    cbn [move velocity kind x y width height fst snd]; qbool; qabs;
    (split; [lra | split; [lra | split; [reflexivity | split; [reflexivity |]]]]);
    exists v'; (split; [reflexivity | split; [lra | lra]]).
Qed.

(** X10: resting contact.  In a world of objects with small integer
    coordinates whose only dynamic body is a player: if the player stands on
    a platform (its bottom edge on the platform's top edge, at least 18
    inside it on either side, the two heights adding up to at least 36), does
    not move sideways and does not rise, no key is held, and no other object
    collides with it, where it stands or where its tick takes it, then its
    own tick sinks it into the platform, the collision pass lifts it back,
    and it ends [update] where it was.  Its downward velocity is not reset by
    the contact. *)
Theorem standing_player_rests (objects : list PhysicsObject) (i j : nat)
    (player platform : PhysicsObject) (v : Q * Q) :
  objects !! i = Some player -> objects !! j = Some platform -> i <> j ->
  Forall small_object objects ->
  tags player = [DYNAMIC; PLAYER] -> kind player = KPlayer v ->
  (forall k obj, objects !! k = Some obj -> k <> i ->
     is_Platform obj /\ id obj <> id player) ->
  (forall k obj, objects !! k = Some obj -> k <> i -> k <> j ->
     AABB_is_colliding (bounds (update_obj no_keys player)) (bounds obj) = false
     /\ AABB_is_colliding (bounds player) (bounds obj) = false) ->
  fst v == 0 -> -15 <= snd v <= 0 ->
  y player + height player == y platform ->
  x platform + 18 <= x player + width player ->
  x player + 18 <= x platform + width platform ->
  36 <= height player + height platform ->
  exists player' v',
    PhysicsEngine.update no_keys objects !! i = Some player'
    /\ x player' == x player /\ y player' == y player
    /\ velocity player' = Some v' /\ fst v' == 0 /\ -18 < snd v' <= -3.
Proof.
  intros Hi Hj Hij _ Ht Hk Hothers Hclear Hvx Hvy Hy Hx1 Hx2 Hh.
  assert (Hp : is_Player player) by (split; [now exists v | exact Ht]).
  destruct (standing_resolved player platform v Hk Hvx Hvy Hy Hx1 Hx2 Hh)
    as (Rx & Ry & Rw & Rh & v' & Rv & Rvx & Rvy).
  assert (Hb : Bounds_eq
                 (translate (bounds (update_obj no_keys player))
                    (AABB_vector_compact (bounds (update_obj no_keys player))
                       (bounds platform)))
                 (bounds player)).
  { eapply Bounds_eq_trans; [apply Bounds_eq_sym, bounds_move |].
    fold (resolved no_keys player platform).
    unfold Bounds_eq, bounds. cbn [fst snd]. rewrite Rw, Rh, Rx, Ry.
    repeat split; reflexivity. }
  destruct (update_single_collision no_keys objects i j player platform
              Hi Hj Hij Hp Hothers) as (player' & Hl & Hs).
  { intros k obj Hko Hki Hkj. destruct (Hclear k obj Hko Hki Hkj) as [C1 C2].
    split; [exact C1 |]. rewrite <- C2.
    apply AABB_is_colliding_Bounds_eq; [exact Hb | apply Bounds_eq_refl]. }
  exists player', v'. split; [exact Hl |].
  destruct Hs as [(_ & _ & _ & _ & Ekind) [Ex Ey]].
  split; [now rewrite <- Ex |]. split; [now rewrite <- Ey |].
  split; [| split; [exact Rvx | exact Rvy]].
  unfold velocity in *. now rewrite <- Ekind.
Qed.

Lemma standing_world_others (k : nat) (obj : PhysicsObject) :
  landed_world !! k = Some obj -> k <> 0%nat ->
  is_Platform obj /\ id obj <> 0%nat.
Proof.
  intros Hk Hne. destruct k as [| k]; [now destruct Hne |].
  do 5 (destruct k as [| k];
        [injection Hk as <-; split; [apply Platform_is_Platform | discriminate] |]).
  discriminate Hk.
Defined.

Lemma standing_world_clear (k : nat) (obj : PhysicsObject) :
  landed_world !! k = Some obj -> k <> 0%nat -> k <> 1%nat ->
  AABB_is_colliding
    (bounds (update_obj no_keys
               (mkPhysicsObject 0 50 430 40 60 [DYNAMIC; PLAYER]
                  (KPlayer (0, -15)))))
    (bounds obj) = false
  /\ AABB_is_colliding
       (bounds (mkPhysicsObject 0 50 430 40 60 [DYNAMIC; PLAYER]
                  (KPlayer (0, -15))))
       (bounds obj) = false.
Proof.
  intros Hk H0 H1.
  destruct k as [| [| k]]; [now destruct H0 | now destruct H1 |].
  do 4 (destruct k as [| k]; [injection Hk as <-; split; reflexivity |]).
  discriminate Hk.
Defined.

Lemma landed_world_small : Forall small_object landed_world.
Proof.
  repeat apply Forall_cons_2; [| | | | | | apply Forall_nil_2]; small_obj.
Defined.

Lemma standing_player_rests_witness :
  (50 + 18 <= 5 + 490 /\ 5 + 18 <= 50 + 40 /\ 430 + 60 == 490)
  /\ exists player' v',
       PhysicsEngine.update no_keys landed_world !! 0%nat = Some player'
       /\ x player' == 50 /\ y player' == 430
       /\ velocity player' = Some v' /\ fst v' == 0 /\ -18 < snd v' <= -3.
Proof.
  split; [split; [discriminate | split; [discriminate | reflexivity]] |].
  apply (standing_player_rests landed_world 0%nat 1%nat
           (mkPhysicsObject 0 50 430 40 60 [DYNAMIC; PLAYER] (KPlayer (0, -15)))
           (fst (Platform 5 490 490 5 1%nat)) (0, -15)
           eq_refl eq_refl (fun H : 0%nat = 1%nat => O_S _ H)
           landed_world_small eq_refl eq_refl
           standing_world_others standing_world_clear).
  - reflexivity.
  - split; discriminate.
  - reflexivity.
  - discriminate.
  - discriminate.
  - discriminate.
Defined.
